(** * Pallet calculator: layer pattern selection and greedy pallet stacking

    A shallow embedding of the two computational functions of [app.py],
    [get_best_layer_pattern] and [calculate_pallet_plan], together with the
    properties of the written specification that concern them.

    Python integers are unbounded, so they are modelled by [Z]; Python's
    [//] and [%] round towards minus infinity, exactly as [Z.div] and
    [Z.modulo] do, and raise [ZeroDivisionError] on a zero divisor.  The
    input mapping is a Python [dict]: its iteration order matters, so it is
    an association list (its keys are distinct, which the theorems that
    need it assume as [NoDup]).  The per-item metadata [item_specs] is only
    ever inserted into and looked up, so it is a finite map. *)

From Stdlib Require Import ZArith Lia.
From stdpp Require Import base list gmap strings pretty.

Local Open Scope Z_scope.

(** ** Exceptions *)

Inductive PyError : Type :=
  | ZeroDivisionError
  | KeyError.

Inductive result (A : Type) : Type :=
  | Ok (a : A)
  | Raise (e : PyError).

Arguments Ok {A} a.
Arguments Raise {A} e.

Definition result_bind {A B : Type} (m : result A) (k : A → result B) : result B :=
  match m with
  | Ok a => k a
  | Raise e => Raise e
  end.

Notation "'do' x <- m ; k" := (result_bind m (λ x, k))
  (at level 10, x name, m at level 100, k at level 200,
   format "'[v' 'do'  x  <-  m ; '/' k ']'").

(** [a // b] *)
Definition floordiv (a b : Z) : result Z :=
  if decide (b = 0) then Raise ZeroDivisionError else Ok (a / b).

(** [a % b] *)
Definition pymod (a b : Z) : result Z :=
  if decide (b = 0) then Raise ZeroDivisionError else Ok (a mod b).

(** [d[k]] on a dict *)
Definition getitem {V : Type} (d : gmap string V) (k : string) : result V :=
  match d !! k with
  | Some v => Ok v
  | None => Raise KeyError
  end.

(** [for x in xs: s = body(s, x)], stopping at the first exception. *)
Fixpoint for_each {S A : Type} (body : S → A → result S) (xs : list A) (s : S)
    : result S :=
  match xs with
  | [] => Ok s
  | x :: xs' => do s' <- body s x; for_each body xs' s'
  end.

(** ** Data *)

(** The dict returned by [get_best_layer_pattern]. *)
Module Pattern.
Record t : Type := mk {
  count : Z;
  cols : Z;
  rows : Z;
  box_w_view : Z;
  box_d_view : Z;
  rotated : bool
}.
End Pattern.

(** The value of the ['type'] key of a queued layer: ['full'] or ['rem']. *)
Inductive LayerType : Type :=
  | full
  | rem.

(** One entry of [all_layers_queue]. *)
Module Layer.
Record t : Type := mk {
  name : string;
  type : LayerType;
  count : Z
}.
End Layer.

(** One value of [input_data_dict]. *)
Record ItemData : Type := mkItemData {
  L : Z;
  W : Z;
  H : Z;
  QTY : Z;
  Color : string
}.

(** One value of [item_specs]. *)
Record ItemSpec : Type := mkItemSpec {
  h : Z;
  color : string;
  pattern : Pattern.t;
  orig_l : Z;
  orig_w : Z
}.

(** One pallet: the dict with keys ['layers'] and ['current_h']. *)
Record Pallet : Type := mkPallet {
  layers : list Layer.t;
  current_h : Z
}.

Global Instance LayerType_eq_dec : EqDecision LayerType.
Proof. solve_decision. Defined.

Global Instance Layer_eq_dec : EqDecision Layer.t.
Proof. solve_decision. Defined.

(** ** The layer pattern selector *)

Definition get_best_layer_pattern (p_w p_d b_l b_w : Z) : result Pattern.t :=
  do cols1 <- floordiv p_w b_l;
  do rows1 <- floordiv p_d b_w;
  let count1 := cols1 * rows1 in
  do cols2 <- floordiv p_w b_w;
  do rows2 <- floordiv p_d b_l;
  let count2 := cols2 * rows2 in
  if decide (count1 >= count2) then
    Ok (Pattern.mk count1 cols1 rows1 b_l b_w false)
  else
    Ok (Pattern.mk count2 cols2 rows2 b_w b_l true).

(** ** The planner *)

Section Planner.

(** The module-level globals read by [calculate_pallet_plan]. *)
Variables PALLET_W PALLET_D : Z.

(** Body of the first loop, on the state
    [(all_layers_queue, item_specs)]. *)
Definition queue_item (st : list Layer.t * gmap string ItemSpec)
    (entry : string * ItemData) : result (list Layer.t * gmap string ItemSpec) :=
  let '(all_layers_queue, item_specs) := st in
  let '(name, data) := entry in
  do pattern <- get_best_layer_pattern PALLET_W PALLET_D (L data) (W data);
  let total_qty := QTY data in
  if decide (total_qty <= 0) then Ok st else
  let per_layer := Pattern.count pattern in
  if decide (per_layer = 0) then Ok st else
  do full_layers <- floordiv total_qty per_layer;
  do remainder <- pymod total_qty per_layer;
  let item_specs :=
    <[name := mkItemSpec (H data) (Color data) pattern (L data) (W data)]>
      item_specs in
  let all_layers_queue :=
    all_layers_queue
      ++ replicate (Z.to_nat full_layers) (Layer.mk name full per_layer) in
  let all_layers_queue :=
    if decide (remainder > 0)
    then all_layers_queue ++ [Layer.mk name rem remainder]
    else all_layers_queue in
  Ok (all_layers_queue, item_specs).

(** The first loop. *)
Definition build_queue (input_data_dict : list (string * ItemData))
    : result (list Layer.t * gmap string ItemSpec) :=
  for_each queue_item input_data_dict ([], ∅).

(** Body of the second loop, on the state [(pallets, current_pallet)]. *)
Definition place_layer (item_specs : gmap string ItemSpec) (limit_h pallet_h : Z)
    (st : list Pallet * Pallet) (layer : Layer.t) : result (list Pallet * Pallet) :=
  let '(pallets, current_pallet) := st in
  let name := Layer.name layer in
  do spec <- getitem item_specs name;
  let h := h spec in
  if decide (current_h current_pallet + h <= limit_h) then
    Ok (pallets,
        mkPallet (layers current_pallet ++ [layer])
                 (current_h current_pallet + h))
  else
    Ok (pallets ++ [current_pallet], mkPallet [layer] (pallet_h + h)).

Definition calculate_pallet_plan (input_data_dict : list (string * ItemData))
    (limit_h pallet_h : Z) : result (list Pallet * gmap string ItemSpec) :=
  do built <- build_queue input_data_dict;
  let '(all_layers_queue, item_specs) := built in
  do packed <-
    for_each (place_layer item_specs limit_h pallet_h) all_layers_queue
             ([], mkPallet [] pallet_h);
  let '(pallets, current_pallet) := packed in
  let pallets :=
    if decide (layers current_pallet = [])
    then pallets
    else pallets ++ [current_pallet] in
  Ok (pallets, item_specs).

(** ** Vocabulary of the specification *)

(** Boxes per layer of an item: the count of its pattern. *)
Definition boxes_per_layer (data : ItemData) : Z :=
  match get_best_layer_pattern PALLET_W PALLET_D (L data) (W data) with
  | Ok pat => Pattern.count pat
  | Raise _ => 0
  end.

(** The items the first loop passes over with [continue]. *)
Definition skipped (data : ItemData) : Prop :=
  QTY data <= 0 ∨ boxes_per_layer data = 0.

Global Instance skipped_dec data : Decision (skipped data).
Proof. unfold skipped. apply _. Defined.

(** The layers of one item as the specification words them: [Q/P] full
    layers of [P] boxes, then one remainder layer of [Q mod P] boxes when
    that is positive. *)
Definition item_layers (name : string) (Q P : Z) : list Layer.t :=
  replicate (Z.to_nat (Q / P)) (Layer.mk name full P)
    ++ (if decide (Q mod P > 0) then [Layer.mk name rem (Q mod P)] else []).

Definition queue_of_item (entry : string * ItemData) : list Layer.t :=
  if decide (skipped entry.2) then []
  else item_layers entry.1 (QTY entry.2) (boxes_per_layer entry.2).

(** The layer queue as the specification words it: the items in the
    iteration order of the mapping, each with its full layers first. *)
Definition expected_queue (items : list (string * ItemData)) : list Layer.t :=
  concat (queue_of_item <$> items).

End Planner.

(** The precondition under which the selector cannot divide by zero. *)
Definition dims_nonzero (entry : string * ItemData) : Prop :=
  L entry.2 ≠ 0 ∧ W entry.2 ≠ 0.

(** Height of the item a layer belongs to, read from the input mapping. *)
Definition item_height (items : list (string * ItemData)) (name : string) : Z :=
  from_option H 0 ((list_to_map items : gmap string ItemData) !! name).

Definition layer_height (items : list (string * ItemData)) (layer : Layer.t) : Z :=
  item_height items (Layer.name layer).

Definition sum_Z (xs : list Z) : Z := foldr Z.add 0 xs.

(** The layers of all pallets of a plan, bottom to top, pallet after pallet. *)
Definition plan_layers (pallets : list Pallet) : list Layer.t :=
  concat (layers <$> pallets).

(** The greedy rule of the specification, worded as a relation between the
    pallets already pushed, the current pallet, the rest of the queue and the
    final output. *)
Inductive greedy_rule (height : Layer.t → Z) (heightLimit palletBaseHeight : Z)
    : list Pallet → Pallet → list Layer.t → list Pallet → Prop :=
  | greedy_append output current layer queue final :
      current_h current + height layer <= heightLimit →
      greedy_rule height heightLimit palletBaseHeight output
        (mkPallet (layers current ++ [layer]) (current_h current + height layer))
        queue final →
      greedy_rule height heightLimit palletBaseHeight output current
        (layer :: queue) final
  | greedy_start_new output current layer queue final :
      ¬ current_h current + height layer <= heightLimit →
      greedy_rule height heightLimit palletBaseHeight (output ++ [current])
        (mkPallet [layer] (palletBaseHeight + height layer))
        queue final →
      greedy_rule height heightLimit palletBaseHeight output current
        (layer :: queue) final
  | greedy_finish_push output current :
      layers current ≠ [] →
      greedy_rule height heightLimit palletBaseHeight output current []
        (output ++ [current])
  | greedy_finish_skip output current :
      layers current = [] →
      greedy_rule height heightLimit palletBaseHeight output current [] output.

(** What the specification says of a finished pallet: its recorded height
    is the base height plus the heights of its layers, and it is above the
    limit only as a single layer that is too high on its own. *)
Definition pallet_ok (height : Layer.t → Z) (limit base : Z) (p : Pallet) : Prop :=
  current_h p = base + sum_Z (height <$> layers p)
  ∧ (limit < current_h p →
     ∃ l, layers p = [l] ∧ limit - base < height l).

(** Height of a layer as the second loop reads it, [item_specs[name]['h']]. *)
Definition spec_height (item_specs : gmap string ItemSpec) (layer : Layer.t) : Z :=
  from_option h 0 (item_specs !! Layer.name layer).

(** The final [if current_pallet['layers']: pallets.append(current_pallet)]. *)
Definition finish (st : list Pallet * Pallet) : list Pallet :=
  if decide (layers st.2 = []) then st.1 else st.1 ++ [st.2].

(** ** Sample inputs *)

(** The default table of the data editor. *)
Definition default_items : list (string * ItemData) :=
  [ ("Item-A"%string, mkItemData 336 336 235 72 "#aaccff");
    ("Item-B"%string, mkItemData 503 363 321 13 "#ffcc99") ].

(** One box that is taller than the room above the pallet. *)
Definition tall_items : list (string * ItemData) :=
  [ ("Tall"%string, mkItemData 336 336 1500 1 "#aaccff") ].

(** The first default item, an order line of quantity 0 and a box that fits
    on the pallet in neither orientation. *)
Definition mixed_items : list (string * ItemData) :=
  [ ("Item-A"%string, mkItemData 336 336 235 72 "#aaccff");
    ("None"%string, mkItemData 503 363 321 0 "#ffcc99");
    ("Huge"%string, mkItemData 1200 1300 100 5 "#cccccc") ].

Definition result_map {A B : Type} (f : A → B) (r : result A) : result B :=
  do a <- r; Ok (f a).

(** ** The caller: from the edited table to the input mapping *)

(** One row of the edited table, with the cells the script reads: a name
    and a colour that are strings, and integer sizes and quantity. *)
Module TableRow.
Record t : Type := mk {
  Name : string;
  L : Z;
  W : Z;
  H : Z;
  QTY : Z;
  Color : string
}.
End TableRow.

(** [d[k] = v] on a dict kept in insertion order: an existing key keeps its
    place and takes the new value, a new key goes to the end. *)
Fixpoint dict_set {V : Type} (d : list (string * V)) (k : string) (v : V)
    : list (string * V) :=
  match d with
  | [] => [(k, v)]
  | (k', v') :: d' =>
      if decide (k' = k) then (k, v) :: d' else (k', v') :: dict_set d' k v
  end.

(** [if row["Name"] and row["QTY"] > 0] *)
Definition row_valid (row : TableRow.t) : Prop :=
  TableRow.Name row ≠ ""%string ∧ TableRow.QTY row > 0.

Global Instance row_valid_dec row : Decision (row_valid row).
Proof. unfold row_valid. apply _. Defined.

Definition row_data (row : TableRow.t) : ItemData :=
  mkItemData (TableRow.L row) (TableRow.W row) (TableRow.H row) (TableRow.QTY row) (TableRow.Color row).

(** Body of the loop over [edited_df.iterrows()]. *)
Definition add_row (input_data_dict : list (string * ItemData)) (row : TableRow.t)
    : list (string * ItemData) :=
  if decide (row_valid row)
  then dict_set input_data_dict (TableRow.Name row) (row_data row)
  else input_data_dict.

(** The mapping the script hands to [calculate_pallet_plan]. *)
Definition input_data_dict_of (rows : list TableRow.t) : list (string * ItemData) :=
  foldl add_row [] rows.

(** ** The side view and the packing list *)

(** The running height of one pallet in the side view of [create_figure]:
    it starts at [PALLET_H] and grows by [item_specs[name]['h']] for each
    layer; the drawing calls in between do not write it. *)
Definition side_view_step (item_specs : gmap string ItemSpec) (current_h : Z)
    (layer : Layer.t) : result Z :=
  do spec <- getitem item_specs (Layer.name layer);
  Ok (current_h + h spec).

Definition side_view_height (PALLET_H : Z) (item_specs : gmap string ItemSpec)
    (pallet : Pallet) : result Z :=
  for_each (side_view_step item_specs) (layers pallet) PALLET_H.

(** One line of the packing list of a pallet: the values under the keys
    for the item, the quantity and the state. *)
Record PackingRow : Type := mkPackingRow {
  row_item : string;
  row_quantity : string;
  row_state : string
}.

Definition packing_row (layer : Layer.t) : PackingRow :=
  mkPackingRow (Layer.name layer)
    (pretty (Layer.count layer) +:+ "cs")
    (if decide (Layer.type layer = full) then "満載" else "⚠️端数")%string.

(** [layers_data] of the packing list: the layers from the top down. *)
Definition layers_data (pallet : Pallet) : list PackingRow :=
  packing_row <$> reverse (layers pallet).

(** ** The password gate *)

(** The values the gate stores in and reads from the session state. *)
Inductive PyVal : Type :=
  | PStr (s : string)
  | PBool (b : bool).

Global Instance PyVal_eq_dec : EqDecision PyVal.
Proof. solve_decision. Defined.

(** Truth value of a Python value in a condition. *)
Definition truthy (v : PyVal) : bool :=
  match v with
  | PStr s => bool_decide (s ≠ ""%string)
  | PBool b => b
  end.

(** What the gate puts on the page. *)
Inductive Widget : Type :=
  | TextInput (label key : string)
  | ErrorBox (body : string).

(** The [on_change] callback of the password field. *)
Definition password_entered (secrets session_state : gmap string PyVal)
    : result (gmap string PyVal) :=
  do entered <- getitem session_state "password";
  do secret <- getitem secrets "PASSWORD";
  if decide (entered = secret) then
    Ok (delete "password"%string
          (<["password_correct"%string := PBool true]> session_state))
  else
    Ok (<["password_correct"%string := PBool false]> session_state).

(** [check_password]: its return value and what it renders. *)
Definition check_password (session_state : gmap string PyVal) : bool * list Widget :=
  let prompt := TextInput "パスワードを入力してください" "password" in
  match session_state !! "password_correct"%string with
  | Some v =>
      if truthy v then (true, [])
      else (false, [prompt; ErrorBox "😕 パスワードが違います"])
  | None => (false, [prompt])
  end.

(** ** Vocabulary of the further properties *)

(** A secrets file and the session state right after a password was typed. *)
Definition sample_secrets : gmap string PyVal :=
  {[ "PASSWORD"%string := PStr "s3cret" ]}.

Definition sample_session (typed : string) : gmap string PyVal :=
  {[ "password"%string := PStr typed ]}.

(** A table with a repeated name, an unnamed row and a row of quantity 0. *)
Definition sample_rows : list TableRow.t :=
  [ TableRow.mk "Item-A" 336 336 235 72 "#aaccff";
    TableRow.mk "" 100 100 100 5 "#000000";
    TableRow.mk "Item-B" 503 363 321 0 "#ffcc99";
    TableRow.mk "Item-A" 400 300 200 10 "#aaccff" ].

Global Instance dims_nonzero_dec entry : Decision (dims_nonzero entry).
Proof. unfold dims_nonzero. apply _. Defined.

(** Boxes of one item over all pallets of a plan. *)
Definition boxes_of (name : string) (pallets : list Pallet) : Z :=
  sum_Z (Layer.count <$> filter (λ l, Layer.name l = name) (plan_layers pallets)).

(** The pallet [next] was started because its first layer did not fit on
    [p]. *)
Definition split_forced (height : Layer.t → Z) (limit : Z) (p next : Pallet) : Prop :=
  ∃ l rest, layers next = l :: rest ∧ limit < current_h p + height l.

Fixpoint splits_forced (height : Layer.t → Z) (limit : Z) (ps : list Pallet) : Prop :=
  match ps with
  | [] => True
  | p :: tl =>
      match tl with
      | [] => True
      | next :: _ => split_forced height limit p next
      end ∧ splits_forced height limit tl
  end.

(** * Properties *)

(** ** The result monad and the loops *)

Lemma floordiv_ok a b : b ≠ 0 → floordiv a b = Ok (a / b).
Proof. intros Hb. unfold floordiv. by rewrite decide_False. Qed.

Lemma pymod_ok a b : b ≠ 0 → pymod a b = Ok (a mod b).
Proof. intros Hb. unfold pymod. by rewrite decide_False. Qed.

Lemma for_each_app {S A : Type} (body : S → A → result S) xs ys s :
  for_each body (xs ++ ys) s = do s' <- for_each body xs s; for_each body ys s'.
Proof.
  revert s. induction xs as [|x xs IH]; intros s; simpl; [done|].
  destruct (body s x) as [s'|e]; simpl; [apply IH | done].
Qed.

(** ** The layer pattern selector *)

(** With nonzero box sides the selector returns one of the two candidate
    tilings, the unrotated one exactly when its count is not smaller. *)
Lemma get_best_layer_pattern_ok p_w p_d b_l b_w :
  b_l ≠ 0 → b_w ≠ 0 →
  get_best_layer_pattern p_w p_d b_l b_w =
    Ok (if decide ((p_w / b_l) * (p_d / b_w) >= (p_w / b_w) * (p_d / b_l))
        then Pattern.mk ((p_w / b_l) * (p_d / b_w)) (p_w / b_l) (p_d / b_w)
               b_l b_w false
        else Pattern.mk ((p_w / b_w) * (p_d / b_l)) (p_w / b_w) (p_d / b_l)
               b_w b_l true).
Proof.
  intros Hl Hw. unfold get_best_layer_pattern.
  rewrite !floordiv_ok by done. simpl. by case_decide.
Qed.

(** C2. For positive pallet and box dimensions the selector returns the
    candidate tiling with the larger product cols*rows, the unrotated one
    on a tie; the record carries the chosen cols and rows, their product as
    count, the placed box width and depth (swapped exactly when rotated) and
    the rotated flag.  On 1100 x 1100 with a 336 x 336 box it returns the
    unrotated 3 x 3 pattern of 9 boxes. *)
Theorem get_best_layer_pattern_larger_product p_w p_d b_l b_w :
  0 < p_w → 0 < p_d → 0 < b_l → 0 < b_w →
  ∃ pat,
    get_best_layer_pattern p_w p_d b_l b_w = Ok pat
    ∧ Pattern.count pat = Pattern.cols pat * Pattern.rows pat
    ∧ Pattern.count pat = Z.max ((p_w / b_l) * (p_d / b_w)) ((p_w / b_w) * (p_d / b_l))
    ∧ (Pattern.rotated pat = false ↔ (p_w / b_w) * (p_d / b_l) <= (p_w / b_l) * (p_d / b_w))
    ∧ (Pattern.rotated pat = false →
         Pattern.cols pat = p_w / b_l ∧ Pattern.rows pat = p_d / b_w
         ∧ Pattern.box_w_view pat = b_l ∧ Pattern.box_d_view pat = b_w)
    ∧ (Pattern.rotated pat = true →
         Pattern.cols pat = p_w / b_w ∧ Pattern.rows pat = p_d / b_l
         ∧ Pattern.box_w_view pat = b_w ∧ Pattern.box_d_view pat = b_l)
    ∧ get_best_layer_pattern 1100 1100 336 336 = Ok (Pattern.mk 9 3 3 336 336 false).
Proof.
  intros Hpw Hpd Hl Hw.
  eexists. split; [apply get_best_layer_pattern_ok; lia|].
  case_decide as Hc; simpl; repeat split; try done; try lia.
Qed.

Lemma get_best_layer_pattern_larger_product_witness :
  ∃ pat,
    get_best_layer_pattern 1100 1100 503 363 = Ok pat
    ∧ Pattern.count pat = Pattern.cols pat * Pattern.rows pat
    ∧ Pattern.count pat = Z.max ((1100 / 503) * (1100 / 363)) ((1100 / 363) * (1100 / 503))
    ∧ (Pattern.rotated pat = false ↔ (1100 / 363) * (1100 / 503) <= (1100 / 503) * (1100 / 363))
    ∧ (Pattern.rotated pat = false →
         Pattern.cols pat = 1100 / 503 ∧ Pattern.rows pat = 1100 / 363
         ∧ Pattern.box_w_view pat = 503 ∧ Pattern.box_d_view pat = 363)
    ∧ (Pattern.rotated pat = true →
         Pattern.cols pat = 1100 / 363 ∧ Pattern.rows pat = 1100 / 503
         ∧ Pattern.box_w_view pat = 363 ∧ Pattern.box_d_view pat = 503)
    ∧ get_best_layer_pattern 1100 1100 336 336 = Ok (Pattern.mk 9 3 3 336 336 false).
Proof. apply (get_best_layer_pattern_larger_product 1100 1100 503 363); lia. Defined.

(** C9. For four positive dimensions the selector is total: it raises
    nothing and returns a count that is not negative; when the box fits in
    neither orientation the count is 0, a normal result. *)
Theorem get_best_layer_pattern_total p_w p_d b_l b_w :
  0 < p_w → 0 < p_d → 0 < b_l → 0 < b_w →
  ∃ pat,
    get_best_layer_pattern p_w p_d b_l b_w = Ok pat
    ∧ 0 <= Pattern.count pat
    ∧ ((p_w < b_l ∨ p_d < b_w) → (p_w < b_w ∨ p_d < b_l) → Pattern.count pat = 0).
Proof.
  intros Hpw Hpd Hl Hw.
  eexists. split; [apply get_best_layer_pattern_ok; lia|].
  assert (0 <= p_w / b_l) by (apply Z.div_pos; lia).
  assert (0 <= p_d / b_w) by (apply Z.div_pos; lia).
  assert (0 <= p_w / b_w) by (apply Z.div_pos; lia).
  assert (0 <= p_d / b_l) by (apply Z.div_pos; lia).
  split.
  - case_decide; simpl; nia.
  - intros Hun Hrot.
    assert ((p_w / b_l) * (p_d / b_w) = 0) as E1.
    { destruct Hun; [rewrite (Z.div_small p_w b_l) by lia|rewrite (Z.div_small p_d b_w) by lia]; lia. }
    assert ((p_w / b_w) * (p_d / b_l) = 0) as E2.
    { destruct Hrot; [rewrite (Z.div_small p_w b_w) by lia|rewrite (Z.div_small p_d b_l) by lia]; lia. }
    case_decide; simpl; lia.
Qed.

Lemma get_best_layer_pattern_total_witness :
  ∃ pat,
    get_best_layer_pattern 1100 1100 1200 1300 = Ok pat
    ∧ 0 <= Pattern.count pat
    ∧ ((1100 < 1200 ∨ 1100 < 1300) → (1100 < 1300 ∨ 1100 < 1200) → Pattern.count pat = 0).
Proof. apply (get_best_layer_pattern_total 1100 1100 1200 1300); lia. Defined.

(** ** Lists *)

Lemma filter_all {A} (P : A → Prop) `{∀ x, Decision (P x)} (l : list A) :
  Forall P l → filter P l = l.
Proof.
  induction 1 as [|x l Hx _ IH]; [done|]. by rewrite filter_cons_True, IH.
Qed.

Lemma filter_none {A} (P : A → Prop) `{∀ x, Decision (P x)} (l : list A) :
  Forall (λ x, ¬ P x) l → filter P l = [].
Proof.
  induction 1 as [|x l Hx _ IH]; [done|]. by rewrite filter_cons_False.
Qed.

Lemma sum_Z_replicate k x : sum_Z (replicate k x) = Z.of_nat k * x.
Proof. unfold sum_Z. induction k as [|k IH]; simpl; lia. Qed.

(** ** The first loop: queue construction *)

Section QueueProofs.

Variables PALLET_W PALLET_D : Z.


(** One pass of the loop body, for an item with nonzero sides. *)
Lemma queue_item_ok q0 (s0 : gmap string ItemSpec) n d :
  L d ≠ 0 → W d ≠ 0 →
  ∃ pat,
    get_best_layer_pattern PALLET_W PALLET_D (L d) (W d) = Ok pat
    ∧ queue_item PALLET_W PALLET_D (q0, s0) (n, d) =
        Ok (q0 ++ queue_of_item PALLET_W PALLET_D (n, d),
            if decide (skipped PALLET_W PALLET_D d) then s0
            else <[n := mkItemSpec (H d) (Color d) pat (L d) (W d)]> s0).
Proof.
  intros Hl Hw.
  pose proof (get_best_layer_pattern_ok PALLET_W PALLET_D _ _ Hl Hw) as E.
  destruct (get_best_layer_pattern PALLET_W PALLET_D (L d) (W d))
    as [pat|] eqn:Epat; [clear E|discriminate].
  exists pat. split; [done|].
  assert (boxes_per_layer PALLET_W PALLET_D d = Pattern.count pat) as Ebpl.
  { unfold boxes_per_layer. by rewrite Epat. }
  unfold queue_item, queue_of_item.
  cbn [fst snd]. rewrite Epat, Ebpl. cbn [result_bind].
  destruct (decide (skipped PALLET_W PALLET_D d)) as [Hs|Hs];
    unfold skipped in Hs; rewrite Ebpl in Hs.
  { rewrite app_nil_r. destruct (decide (QTY d <= 0)); [done|].
    rewrite decide_True by tauto. done. }
  rewrite (decide_False (P := QTY d <= 0)) by tauto.
  rewrite (decide_False (P := Pattern.count pat = 0)) by tauto.
  rewrite floordiv_ok, pymod_ok by tauto. cbn [result_bind].
  unfold item_layers.
  case_decide; [by rewrite <- app_assoc | by rewrite app_nil_r].
Qed.

Lemma item_layers_name n Q P l : l ∈ item_layers n Q P → Layer.name l = n.
Proof.
  unfold item_layers. rewrite elem_of_app. intros [Hl|Hl].
  - apply elem_of_replicate in Hl as [-> _]. done.
  - case_decide; [|by apply elem_of_nil in Hl].
    apply list_elem_of_singleton in Hl as ->. done.
Qed.

(** Every queued layer has a positive count, whatever the item. *)
Lemma item_layers_count_pos n Q P l :
  0 < Q → l ∈ item_layers n Q P → 0 < Layer.count l.
Proof.
  intros HQ. unfold item_layers. rewrite elem_of_app. intros [Hl|Hl].
  - apply elem_of_replicate in Hl as [-> Hk]. simpl.
    destruct (decide (0 < P)) as [|HP]; [done|]. exfalso. apply Hk.
    destruct (decide (P = 0)) as [->|]; [by rewrite Z.div_0_r|].
    pose proof (Z.div_mod Q P ltac:(done)).
    pose proof (Z.mod_neg_bound Q P ltac:(lia)).
    assert (Q / P <= 0) by nia. lia.
  - case_decide; [|by apply elem_of_nil in Hl].
    apply list_elem_of_singleton in Hl as ->. simpl. lia.
Qed.

Lemma expected_queue_cons e items :
  expected_queue PALLET_W PALLET_D (e :: items) = queue_of_item PALLET_W PALLET_D e ++ expected_queue PALLET_W PALLET_D items.
Proof. done. Qed.

Lemma expected_queue_app items1 items2 :
  expected_queue PALLET_W PALLET_D (items1 ++ items2)
  = expected_queue PALLET_W PALLET_D items1 ++ expected_queue PALLET_W PALLET_D items2.
Proof.
  unfold expected_queue. by rewrite fmap_app, concat_app.
Qed.

(** A queued layer comes from an item of the mapping that was not skipped PALLET_W PALLET_D. *)
Lemma expected_queue_elem items l :
  l ∈ expected_queue PALLET_W PALLET_D items →
  ∃ d, (Layer.name l, d) ∈ items ∧ ¬ skipped PALLET_W PALLET_D d
       ∧ l ∈ item_layers (Layer.name l) (QTY d) (boxes_per_layer PALLET_W PALLET_D d).
Proof.
  induction items as [|[n d] items IH]; [by intros ?%elem_of_nil|].
  rewrite expected_queue_cons, elem_of_app. intros [Hl|Hl].
  - unfold queue_of_item in Hl. cbn [fst snd] in Hl.
    case_decide; [by apply elem_of_nil in Hl|].
    pose proof (item_layers_name _ _ _ _ Hl) as ->.
    exists d. split_and!; [left|done|done].
  - destruct (IH Hl) as (d' & ? & ? & ?). exists d'. split_and!; [by right|done..].
Qed.

Lemma expected_queue_all_skipped items :
  (∀ n d, (n, d) ∈ items → skipped PALLET_W PALLET_D d) → expected_queue PALLET_W PALLET_D items = [].
Proof.
  intros Hall. destruct (expected_queue PALLET_W PALLET_D items) as [|l q] eqn:E; [done|].
  destruct (expected_queue_elem items l) as (d & Hin & Hns & _).
  { rewrite E. left. }
  destruct Hns. eauto.
Qed.

(** The first loop from any state: it raises nothing when all sides are
    nonzero, extends the queue by the layers of the items in order, and
    writes the metadata of exactly the items it does not skip. *)
Lemma for_each_queue_item items :
  Forall dims_nonzero items →
  ∀ q0 (s0 : gmap string ItemSpec),
  ∃ s1 : gmap string ItemSpec,
    for_each (queue_item PALLET_W PALLET_D) items (q0, s0) = Ok (q0 ++ expected_queue PALLET_W PALLET_D items, s1)
    ∧ (∀ n, (∀ d, (n, d) ∈ items → skipped PALLET_W PALLET_D d) → s1 !! n = s0 !! n)
    ∧ (∀ n, is_Some (s0 !! n) ∨ (∃ d, (n, d) ∈ items ∧ ¬ skipped PALLET_W PALLET_D d) →
            is_Some (s1 !! n))
    ∧ (NoDup items.*1 → ∀ n d, (n, d) ∈ items → ¬ skipped PALLET_W PALLET_D d →
         ∃ pat, get_best_layer_pattern PALLET_W PALLET_D (L d) (W d) = Ok pat
                ∧ s1 !! n = Some (mkItemSpec (H d) (Color d) pat (L d) (W d))).
Proof.
  induction 1 as [|[n0 d0] items [Hl Hw] _ IH]; intros q0 s0.
  { exists s0. split_and!; [by rewrite app_nil_r|done| |].
    - intros n [?|(d & []%elem_of_nil & _)]. done.
    - intros _ n d []%elem_of_nil. }
  cbn [fst snd] in Hl, Hw.
  destruct (queue_item_ok q0 s0 n0 d0 Hl Hw) as (pat & Epat & Estep).
  set (s0' := if decide (skipped PALLET_W PALLET_D d0) then s0 else _) in Estep.
  destruct (IH (q0 ++ queue_of_item PALLET_W PALLET_D (n0, d0)) s0') as (s1 & Erun & Hskip & Hsome & Hkept).
  exists s1. split_and!.
  - cbn [for_each]. rewrite Estep. cbn [result_bind]. rewrite Erun.
    by rewrite expected_queue_cons, app_assoc.
  - intros n Hn. rewrite Hskip by (intros d ?; apply Hn; by right).
    subst s0'. case_decide as Hs0; [done|].
    rewrite lookup_insert_ne; [done|]. intros ->. apply Hs0, Hn. left.
  - intros n Hn. apply Hsome.
    destruct Hn as [Hn|(d & [[= -> ->]|Hin]%elem_of_cons & Hns)].
    + left. subst s0'. case_decide; [done|].
      destruct (decide (n0 = n)) as [->|]; [by rewrite lookup_insert_eq|].
      by rewrite lookup_insert_ne.
    + left. subst s0'. rewrite decide_False by done. by rewrite lookup_insert_eq.
    + right. eauto.
  - rewrite fmap_cons, NoDup_cons. cbn [fst]. intros [Hfresh Hnd] n d Hin Hns.
    apply elem_of_cons in Hin as [[= -> ->]|Hin]; [|by apply Hkept].
    exists pat. split; [done|].
    rewrite Hskip.
    + subst s0'. rewrite decide_False by done. by rewrite lookup_insert_eq.
    + intros d Hd. destruct Hfresh. apply list_elem_of_fmap. by exists (n0, d).
Qed.

Lemma build_queue_ok items :
  Forall dims_nonzero items →
  ∃ specs : gmap string ItemSpec,
    build_queue PALLET_W PALLET_D items = Ok (expected_queue PALLET_W PALLET_D items, specs)
    ∧ (∀ n, (∀ d, (n, d) ∈ items → skipped PALLET_W PALLET_D d) → specs !! n = None)
    ∧ (∀ l, l ∈ expected_queue PALLET_W PALLET_D items → is_Some (specs !! Layer.name l))
    ∧ (NoDup items.*1 → ∀ n d, (n, d) ∈ items → ¬ skipped PALLET_W PALLET_D d →
         ∃ pat, get_best_layer_pattern PALLET_W PALLET_D (L d) (W d) = Ok pat
                ∧ specs !! n = Some (mkItemSpec (H d) (Color d) pat (L d) (W d))).
Proof.
  intros Hdims.
  destruct (for_each_queue_item items Hdims [] ∅) as (s1 & Erun & Hskip & Hsome & Hkept).
  exists s1. split_and!; [done| | |done].
  - intros n Hn. by rewrite Hskip.
  - intros l (d & Hin & Hns & _)%expected_queue_elem. apply Hsome. eauto.
Qed.

End QueueProofs.

(** ** The second loop: greedy stacking *)

Lemma sum_Z_app xs ys : sum_Z (xs ++ ys) = sum_Z xs + sum_Z ys.
Proof. unfold sum_Z. induction xs as [|x xs IH]; simpl; lia. Qed.


Lemma plan_layers_cons p ps : plan_layers (p :: ps) = layers p ++ plan_layers ps.
Proof. done. Qed.

Lemma elem_of_plan_layers l p ps : p ∈ ps → l ∈ layers p → l ∈ plan_layers ps.
Proof.
  intros Hp Hl. induction ps as [|p' ps IH]; [by apply elem_of_nil in Hp|].
  rewrite plan_layers_cons, elem_of_app.
  apply elem_of_cons in Hp as [->|Hp]; [by left|right; by apply IH].
Qed.

Section StackingProofs.

Variable height : Layer.t → Z.
Variables limit base : Z.

Local Abbreviation greedy := (greedy_rule height limit base).

(** The loop follows the greedy rule whenever the metadata holds the
    height of every queued layer; in particular the lookup never fails. *)
Lemma for_each_place_layer (specs : gmap string ItemSpec) queue :
  (∀ l, l ∈ queue → ∃ sp, specs !! Layer.name l = Some sp ∧ h sp = height l) →
  ∀ out cur,
  ∃ st, for_each (place_layer specs limit base) queue (out, cur) = Ok st
        ∧ greedy out cur queue (finish st).
Proof.
  induction queue as [|l q IH]; intros Hh out cur.
  { exists (out, cur). split; [done|]. unfold finish. cbn [fst snd].
    case_decide; by constructor. }
  destruct (Hh l) as (sp & Esp & Ehs); [left|].
  assert (∀ l', l' ∈ q → ∃ sp', specs !! Layer.name l' = Some sp' ∧ h sp' = height l')
    as Hq by (intros l' ?; apply Hh; by right).
  cbn [for_each]. unfold place_layer at 1, getitem. rewrite Esp.
  cbn [result_bind]. rewrite Ehs. case_decide.
  - destruct (IH Hq out (mkPallet (layers cur ++ [l]) (current_h cur + height l)))
      as (st & E & G).
    exists st. split; [done|]. by apply greedy_append.
  - destruct (IH Hq (out ++ [cur]) (mkPallet [l] (base + height l)))
      as (st & E & G).
    exists st. split; [done|]. by apply greedy_start_new.
Qed.

(** The output extends the pallets already pushed, and what it adds holds
    the layers of the current pallet followed by the queue, in order. *)
Lemma greedy_rule_layers out cur queue final :
  greedy out cur queue final →
  ∃ rest, final = out ++ rest ∧ plan_layers rest = layers cur ++ queue.
Proof.
  induction 1 as [out cur l q final _ _ (rest & -> & IH)
                 |out cur l q final _ _ (rest & -> & IH)
                 |out cur Hne|out cur He].
  - exists rest. split; [done|]. cbn [layers] in IH. by rewrite IH, <- app_assoc.
  - exists (cur :: rest). split; [by rewrite <- app_assoc|].
    cbn [layers] in IH. by rewrite plan_layers_cons, IH.
  - exists [cur]. split; [done|]. unfold plan_layers. simpl. done.
  - exists []. split; [by rewrite app_nil_r|]. by rewrite He.
Qed.

Lemma greedy_rule_pallet_ok out cur queue final :
  greedy out cur queue final →
  Forall (pallet_ok height limit base) out → pallet_ok height limit base cur →
  Forall (pallet_ok height limit base) final.
Proof.
  induction 1 as [out cur l q final Hfit _ IH
                 |out cur l q final Hfit _ IH
                 |out cur Hne|out cur He]; intros Hout Hcur.
  - apply IH; [done|]. destruct Hcur as [Hh _]. split; cbn [layers current_h].
    + rewrite fmap_app, sum_Z_app, Hh. simpl. lia.
    + lia.
  - apply IH.
    + apply Forall_app. split; [done|]. by apply Forall_singleton.
    + split; cbn [layers current_h]; [simpl; lia|].
      intros Hex. exists l. split; [done|lia].
  - apply Forall_app. split; [done|]. by apply Forall_singleton.
  - done.
Qed.



(** With no room above the base and positive heights, no layer ever joins
    another one. *)
Lemma greedy_rule_no_room out cur queue final :
  greedy out cur queue final →
  limit <= base →
  (∀ l, l ∈ queue → 0 < height l) →
  base <= current_h cur →
  Forall (λ p, (length (layers p) <= 1)%nat) out →
  (length (layers cur) <= 1)%nat →
  Forall (λ p, (length (layers p) <= 1)%nat) final.
Proof.
  induction 1 as [out cur l q final Hfit _ IH
                 |out cur l q final Hfit _ IH
                 |out cur Hne|out cur He]; intros Hlim Hpos Hbase Hout Hcur.
  - pose proof (Hpos l ltac:(left)). lia.
  - pose proof (Hpos l ltac:(left)).
    apply IH; [done|intros; apply Hpos; by right|simpl; lia| |simpl; lia].
    apply Forall_app. split; [done|]. by apply Forall_singleton.
  - apply Forall_app. split; [done|]. by apply Forall_singleton.
  - done.
Qed.

End StackingProofs.

(** The rule only looks at the heights of the queued layers. *)
Lemma greedy_rule_ext height1 height2 limit base out cur queue final :
  (∀ l, l ∈ queue → height1 l = height2 l) →
  greedy_rule height1 limit base out cur queue final →
  greedy_rule height2 limit base out cur queue final.
Proof.
  intros Hext Hg.
  induction Hg as [out cur l q final Hfit _ IH
                  |out cur l q final Hfit _ IH
                  |out cur Hne|out cur He].
  - apply greedy_append; rewrite <- (Hext l) by left; [done|].
    apply IH. intros; apply Hext; by right.
  - apply greedy_start_new; rewrite <- (Hext l) by left; [done|].
    apply IH. intros; apply Hext; by right.
  - by apply greedy_finish_push.
  - by apply greedy_finish_skip.
Qed.


(** When the first queued layer does not fit above the base, the rule as
    the loop runs it pushes the still empty initial pallet. *)
Lemma greedy_rule_first_overflow height limit base l queue final :
  greedy_rule height limit base [] (mkPallet [] base) (l :: queue) final →
  limit < base + height l →
  ∃ rest, final = mkPallet [] base :: rest.
Proof.
  intros Hg Hover. inversion Hg as [? ? ? ? ? Hfit Hg'|? ? ? ? ? Hfit Hg'| |]; subst.
  - cbn [current_h] in Hfit. lia.
  - apply greedy_rule_layers in Hg' as (rest & -> & _). by exists rest.
Qed.

(** ** The planner as a whole *)

Section PlanProofs.

Variables PALLET_W PALLET_D : Z.


(** The planner raises nothing when all box sides are nonzero; its pallets
    follow the greedy rule on the queue, with the heights it reads from
    the metadata. *)
Lemma calculate_pallet_plan_ok items limit base :
  Forall dims_nonzero items →
  ∃ pallets (specs : gmap string ItemSpec),
    build_queue PALLET_W PALLET_D items = Ok (expected_queue PALLET_W PALLET_D items, specs)
    ∧ calculate_pallet_plan PALLET_W PALLET_D items limit base = Ok (pallets, specs)
    ∧ greedy_rule (spec_height specs) limit base [] (mkPallet [] base)
        (expected_queue PALLET_W PALLET_D items) pallets
    ∧ (∀ n, (∀ d, (n, d) ∈ items → skipped PALLET_W PALLET_D d) → specs !! n = None)
    ∧ (NoDup items.*1 → ∀ n d, (n, d) ∈ items → ¬ skipped PALLET_W PALLET_D d →
         ∃ pat, get_best_layer_pattern PALLET_W PALLET_D (L d) (W d) = Ok pat
                ∧ specs !! n = Some (mkItemSpec (H d) (Color d) pat (L d) (W d))).
Proof.
  intros Hdims.
  destruct (build_queue_ok PALLET_W PALLET_D items Hdims)
    as (specs & Ebuild & Hskip & Hsome & Hkept).
  destruct (for_each_place_layer (spec_height specs) limit base specs
              (expected_queue PALLET_W PALLET_D items)) with (out := @nil Pallet) (cur := mkPallet [] base)
    as ([out cur] & Erun & Hg).
  { intros l [sp Esp]%Hsome. exists sp. split; [done|].
    unfold spec_height. by rewrite Esp. }
  exists (finish (out, cur)), specs. split_and!; [done| |done..].
  unfold calculate_pallet_plan. rewrite Ebuild. cbn [result_bind].
  rewrite Erun. done.
Qed.

(** With distinct names the height the loop reads for a queued layer is
    the height of its item in the input mapping. *)
Lemma spec_height_layer_height items (specs : gmap string ItemSpec) l :
  NoDup items.*1 →
  (∀ n d, (n, d) ∈ items → ¬ skipped PALLET_W PALLET_D d →
     ∃ pat, get_best_layer_pattern PALLET_W PALLET_D (L d) (W d) = Ok pat
            ∧ specs !! n = Some (mkItemSpec (H d) (Color d) pat (L d) (W d))) →
  l ∈ expected_queue PALLET_W PALLET_D items →
  spec_height specs l = layer_height items l
  ∧ ∃ d, (Layer.name l, d) ∈ items ∧ layer_height items l = H d.
Proof.
  intros Hnd Hkept (d & Hin & Hns & _)%expected_queue_elem.
  destruct (Hkept _ _ Hin Hns) as (pat & _ & Esp).
  assert (layer_height items l = H d) as Eh.
  { unfold layer_height, item_height.
    by rewrite (elem_of_list_to_map_1 _ _ _ Hnd Hin). }
  split; [|by exists d].
  unfold spec_height. by rewrite Esp, Eh.
Qed.

Lemma calculate_pallet_plan_greedy_items items limit base :
  Forall dims_nonzero items → NoDup items.*1 →
  ∃ pallets (specs : gmap string ItemSpec),
    build_queue PALLET_W PALLET_D items = Ok (expected_queue PALLET_W PALLET_D items, specs)
    ∧ calculate_pallet_plan PALLET_W PALLET_D items limit base = Ok (pallets, specs)
    ∧ greedy_rule (layer_height items) limit base [] (mkPallet [] base)
        (expected_queue PALLET_W PALLET_D items) pallets.
Proof.
  intros Hdims Hnd.
  destruct (calculate_pallet_plan_ok items limit base Hdims)
    as (pallets & specs & Ebuild & Eplan & Hg & _ & Hkept).
  exists pallets, specs. split_and!; [done..|].
  eapply greedy_rule_ext; [|exact Hg].
  intros l Hl.
  exact (proj1 (spec_height_layer_height items specs l Hnd (Hkept Hnd) Hl)).
Qed.



(** The plan of a mapping whose first queued layer does not fit above the
    base starts with a pallet without layers. *)
Lemma calculate_pallet_plan_first_overflow items limit base l queue :
  Forall dims_nonzero items → NoDup items.*1 →
  expected_queue PALLET_W PALLET_D items = l :: queue →
  limit < base + layer_height items l →
  ∃ rest (specs : gmap string ItemSpec),
    calculate_pallet_plan PALLET_W PALLET_D items limit base
    = Ok (mkPallet [] base :: rest, specs).
Proof.
  intros Hdims Hnd Equeue Hover.
  destruct (calculate_pallet_plan_greedy_items items limit base Hdims Hnd)
    as (pallets & specs & _ & Eplan & Hg).
  rewrite Equeue in Hg.
  destruct (greedy_rule_first_overflow _ _ _ _ _ _ Hg Hover) as (rest & ->).
  by exists rest, specs.
Qed.

(** C3. For an item with quantity Q > 0 and P > 0 boxes per layer, the
    queue holds, next to each other, floor(Q/P) full layers of P boxes and
    then one remainder layer of Q mod P boxes exactly when Q mod P > 0, and
    no other layer of that item; every queued layer has a positive count
    and the counts of the item's layers add up to Q. *)
Theorem queue_layers_of_item items n d :
  Forall dims_nonzero items → NoDup items.*1 →
  (n, d) ∈ items → 0 < QTY d → 0 < boxes_per_layer PALLET_W PALLET_D d →
  ∃ queue (specs : gmap string ItemSpec) before after,
    build_queue PALLET_W PALLET_D items = Ok (queue, specs)
    ∧ queue =
        before
        ++ (replicate (Z.to_nat (QTY d / boxes_per_layer PALLET_W PALLET_D d))
              (Layer.mk n full (boxes_per_layer PALLET_W PALLET_D d))
            ++ (if decide (QTY d mod boxes_per_layer PALLET_W PALLET_D d > 0)
                then [Layer.mk n rem (QTY d mod boxes_per_layer PALLET_W PALLET_D d)]
                else []))
        ++ after
    ∧ Forall (λ l, Layer.name l ≠ n) before
    ∧ Forall (λ l, Layer.name l ≠ n) after
    ∧ Forall (λ l, 0 < Layer.count l) queue
    ∧ sum_Z (Layer.count <$> filter (λ l, Layer.name l = n) queue) = QTY d.
Proof.
  intros Hdims Hnd Hin HQ HP.
  destruct (build_queue_ok PALLET_W PALLET_D items Hdims) as (specs & Ebuild & _).
  destruct (list_elem_of_split _ _ Hin) as (i1 & i2 & ->).
  assert (∀ its l, l ∈ expected_queue PALLET_W PALLET_D its → Layer.name l ∈ its.*1) as Hnames.
  { intros its l (d' & Hd' & _)%expected_queue_elem.
    apply list_elem_of_fmap. by exists (Layer.name l, d'). }
  rewrite fmap_app, fmap_cons in Hnd. cbn [fst] in Hnd.
  apply NoDup_app in Hnd as (_ & Hn1 & [Hn2 _]%NoDup_cons).
  assert (Forall (λ l, Layer.name l ≠ n) (expected_queue PALLET_W PALLET_D i1)) as Hbefore.
  { apply Forall_forall. intros l Hl%Hnames E. rewrite E in Hl.
    apply (Hn1 _ Hl). left. }
  assert (Forall (λ l, Layer.name l ≠ n) (expected_queue PALLET_W PALLET_D i2)) as Hafter.
  { apply Forall_forall. intros l Hl%Hnames E. by rewrite E in Hl. }
  assert (¬ skipped PALLET_W PALLET_D d) as Hns by (unfold skipped; lia).
  assert (Forall (λ l, Layer.name l = n)
            (item_layers n (QTY d) (boxes_per_layer PALLET_W PALLET_D d))) as Hmine.
  { apply Forall_forall. intros l. apply item_layers_name. }
  exists (expected_queue PALLET_W PALLET_D (i1 ++ (n, d) :: i2)), specs,
    (expected_queue PALLET_W PALLET_D i1), (expected_queue PALLET_W PALLET_D i2).
  assert (expected_queue PALLET_W PALLET_D (i1 ++ (n, d) :: i2)
          = expected_queue PALLET_W PALLET_D i1
            ++ item_layers n (QTY d) (boxes_per_layer PALLET_W PALLET_D d) ++ expected_queue PALLET_W PALLET_D i2)
    as Equeue.
  { rewrite expected_queue_app, expected_queue_cons.
    unfold queue_of_item. cbn [fst snd]. by rewrite decide_False. }
  split_and!; [done|exact Equeue|done|done| |].
  - apply Forall_forall.
    intros l (d' & _ & Hns' & Hl)%expected_queue_elem.
    eapply item_layers_count_pos; [|exact Hl].
    unfold skipped in Hns'. lia.
  - rewrite Equeue, !filter_app.
    rewrite (filter_none _ _ Hbefore), (filter_none _ _ Hafter).
    rewrite (filter_all _ _ Hmine), app_nil_r. cbn [app].
    unfold item_layers. rewrite fmap_app, sum_Z_app, fmap_replicate, sum_Z_replicate.
    cbn [Layer.count].
    pose proof (Z.div_mod (QTY d) (boxes_per_layer PALLET_W PALLET_D d) ltac:(lia)).
    pose proof (Z.mod_pos_bound (QTY d) (boxes_per_layer PALLET_W PALLET_D d) HP).
    pose proof (Z.div_pos (QTY d) (boxes_per_layer PALLET_W PALLET_D d) ltac:(lia) HP).
    rewrite Z2Nat.id by done.
    case_decide; simpl; lia.
Qed.

(** C5. The layers of the output pallets, pallet after pallet, are exactly
    the layer queue: the items in the iteration order of the mapping, each
    with its full layers first and its remainder layer last. *)
Theorem plan_layers_are_the_queue items limit base :
  Forall dims_nonzero items →
  ∃ queue pallets (specs : gmap string ItemSpec),
    build_queue PALLET_W PALLET_D items = Ok (queue, specs)
    ∧ calculate_pallet_plan PALLET_W PALLET_D items limit base = Ok (pallets, specs)
    ∧ plan_layers pallets = queue
    ∧ queue = expected_queue PALLET_W PALLET_D items.
Proof.
  intros Hdims.
  destruct (calculate_pallet_plan_ok items limit base Hdims)
    as (pallets & specs & Ebuild & Eplan & Hg & _).
  exists (expected_queue PALLET_W PALLET_D items), pallets, specs. split_and!; [done..| |done].
  apply greedy_rule_layers in Hg as (rest & -> & Hrest).
  by rewrite app_nil_l, Hrest.
Qed.


(** C6, as the code has it.  A limit that is not above the base height is
    not rejected: the planner still returns a plan holding every queued
    layer in order, and with positive item heights no pallet of that plan
    holds more than one layer. *)
Theorem degenerate_limit_still_plans items limit base :
  Forall dims_nonzero items → NoDup items.*1 → limit <= base →
  ∃ pallets (specs : gmap string ItemSpec),
    calculate_pallet_plan PALLET_W PALLET_D items limit base = Ok (pallets, specs)
    ∧ plan_layers pallets = expected_queue PALLET_W PALLET_D items
    ∧ ((∀ n d, (n, d) ∈ items → 0 < H d) →
       Forall (λ p, (length (layers p) <= 1)%nat) pallets).
Proof.
  intros Hdims Hnd Hlim.
  destruct (calculate_pallet_plan_ok items limit base Hdims)
    as (pallets & specs & Ebuild & Eplan & Hgs & _ & Hkept).
  assert (greedy_rule (layer_height items) limit base [] (mkPallet [] base)
            (expected_queue PALLET_W PALLET_D items) pallets) as Hg.
  { eapply greedy_rule_ext; [|exact Hgs]. intros l Hl.
    exact (proj1 (spec_height_layer_height items specs l Hnd (Hkept Hnd) Hl)). }
  exists pallets, specs. split_and!; [done| |].
  - destruct (greedy_rule_layers _ _ _ _ _ _ _ Hg) as (rest & -> & Hrest).
    by rewrite app_nil_l, Hrest.
  - intros Hpos.
    eapply greedy_rule_no_room; [exact Hg|done| |done|constructor|simpl; lia].
    intros l Hl.
    destruct (proj2 (spec_height_layer_height items specs l Hnd (Hkept Hnd) Hl))
      as (d & Hin & ->).
    by eapply Hpos.
Qed.

(** C8. An item with a quantity <= 0 or with 0 boxes per layer is passed
    over: nothing is raised, the metadata has no entry under its name and
    no pallet holds a layer of it; when every item is passed over, and so
    for the empty mapping, there are no pallets and no metadata. *)
Theorem skipped_items_absent items limit base :
  Forall dims_nonzero items → NoDup items.*1 →
  ∃ pallets (specs : gmap string ItemSpec),
    calculate_pallet_plan PALLET_W PALLET_D items limit base = Ok (pallets, specs)
    ∧ (∀ n d, (n, d) ∈ items → skipped PALLET_W PALLET_D d →
         specs !! n = None
         ∧ ∀ p l, p ∈ pallets → l ∈ layers p → Layer.name l ≠ n)
    ∧ ((∀ n d, (n, d) ∈ items → skipped PALLET_W PALLET_D d) → pallets = [] ∧ specs = ∅).
Proof.
  intros Hdims Hnd.
  destruct (calculate_pallet_plan_ok items limit base Hdims)
    as (pallets & specs & Ebuild & Eplan & Hg & Hskip & _).
  assert (∀ n d d', (n, d) ∈ items → (n, d') ∈ items → d = d') as Huniq.
  { intros n d d' Hd Hd'.
    apply (elem_of_list_to_map_1 (M := gmap string)) in Hd, Hd'; [|done..].
    congruence. }
  exists pallets, specs. split_and!; [done| |].
  - intros n d Hin Hs. split.
    + apply Hskip. intros d' Hd'. by rewrite (Huniq _ _ _ Hd' Hin).
    + intros p l Hp Hl E.
      assert (l ∈ expected_queue PALLET_W PALLET_D items) as Hq.
      { destruct (greedy_rule_layers _ _ _ _ _ _ _ Hg) as (rest & -> & Hrest).
        cbn [layers app] in Hrest. rewrite <- Hrest.
        by apply (elem_of_plan_layers l p). }
      apply expected_queue_elem in Hq as (d' & Hd' & Hns & _).
      rewrite E in Hd'. by rewrite (Huniq _ _ _ Hd' Hin) in Hns.
  - intros Hall. split.
    + rewrite (expected_queue_all_skipped _ _ _ Hall) in Hg.
      inversion Hg as [| |? ? Hne|]; subst; [by destruct Hne|done].
    + apply map_eq. intros n. rewrite lookup_empty. apply Hskip. eauto.
Qed.

End PlanProofs.

(** ** The sample inputs *)

Ltac sample_dims := repeat (constructor; [split; simpl; lia|]); constructor.
Ltac sample_names := apply (bool_decide_unpack _); vm_compute; reflexivity.

Lemma default_items_dims : Forall dims_nonzero default_items.
Proof. sample_dims. Qed.

Lemma default_items_NoDup : NoDup default_items.*1.
Proof. sample_names. Qed.

Lemma tall_items_dims : Forall dims_nonzero tall_items.
Proof. sample_dims. Qed.

Lemma tall_items_NoDup : NoDup tall_items.*1.
Proof. sample_names. Qed.

Lemma mixed_items_dims : Forall dims_nonzero mixed_items.
Proof. sample_dims. Qed.

Lemma mixed_items_NoDup : NoDup mixed_items.*1.
Proof. sample_names. Qed.

Lemma default_items_heights n d : (n, d) ∈ default_items → 0 < H d.
Proof.
  unfold default_items. rewrite !elem_of_cons, elem_of_nil.
  intros [[= _ ->]|[[= _ ->]|[]]]; simpl; lia.
Qed.


Lemma queue_layers_of_item_witness :
  ∃ queue (specs : gmap string ItemSpec) before after,
    build_queue 1100 1100 default_items = Ok (queue, specs)
    ∧ queue =
        before
        ++ (replicate (Z.to_nat (13 / boxes_per_layer 1100 1100
                                        (mkItemData 503 363 321 13 "#ffcc99")))
              (Layer.mk "Item-B" full
                 (boxes_per_layer 1100 1100 (mkItemData 503 363 321 13 "#ffcc99")))
            ++ (if decide (13 mod boxes_per_layer 1100 1100
                                   (mkItemData 503 363 321 13 "#ffcc99") > 0)
                then [Layer.mk "Item-B" rem
                        (13 mod boxes_per_layer 1100 1100
                                  (mkItemData 503 363 321 13 "#ffcc99"))]
                else []))
        ++ after
    ∧ Forall (λ l, Layer.name l ≠ "Item-B"%string) before
    ∧ Forall (λ l, Layer.name l ≠ "Item-B"%string) after
    ∧ Forall (λ l, 0 < Layer.count l) queue
    ∧ sum_Z (Layer.count <$> filter (λ l, Layer.name l = "Item-B"%string) queue) = 13.
Proof.
  apply (queue_layers_of_item 1100 1100 default_items "Item-B"
           (mkItemData 503 363 321 13 "#ffcc99")).
  - exact default_items_dims.
  - exact default_items_NoDup.
  - right. left.
  - simpl. lia.
  - vm_compute. reflexivity.
Defined.

Lemma plan_layers_are_the_queue_witness :
  ∃ queue pallets (specs : gmap string ItemSpec),
    build_queue 1100 1100 default_items = Ok (queue, specs)
    ∧ calculate_pallet_plan 1100 1100 default_items 1550 150 = Ok (pallets, specs)
    ∧ plan_layers pallets = queue
    ∧ queue = expected_queue 1100 1100 default_items.
Proof.
  apply (plan_layers_are_the_queue 1100 1100 default_items 1550 150).
  exact default_items_dims.
Defined.


Lemma degenerate_limit_still_plans_witness :
  100 <= 150
  ∧ ∃ pallets (specs : gmap string ItemSpec),
      calculate_pallet_plan 1100 1100 default_items 100 150 = Ok (pallets, specs)
      ∧ plan_layers pallets = expected_queue 1100 1100 default_items
      ∧ ((∀ n d, (n, d) ∈ default_items → 0 < H d) →
         Forall (λ p, (length (layers p) <= 1)%nat) pallets).
Proof.
  split; [lia|].
  apply (degenerate_limit_still_plans 1100 1100 default_items 100 150).
  - exact default_items_dims.
  - exact default_items_NoDup.
  - lia.
Defined.

Lemma skipped_items_absent_witness :
  ∃ pallets (specs : gmap string ItemSpec),
    calculate_pallet_plan 1100 1100 mixed_items 1550 150 = Ok (pallets, specs)
    ∧ (∀ n d, (n, d) ∈ mixed_items → skipped 1100 1100 d →
         specs !! n = None
         ∧ ∀ p l, p ∈ pallets → l ∈ layers p → Layer.name l ≠ n)
    ∧ ((∀ n d, (n, d) ∈ mixed_items → skipped 1100 1100 d) →
       pallets = [] ∧ specs = ∅).
Proof.
  apply (skipped_items_absent 1100 1100 mixed_items 1550 150).
  - exact mixed_items_dims.
  - exact mixed_items_NoDup.
Defined.

(** ** Degenerate limit and the empty first pallet *)

(** C6, as stated, fails: with limit 100 below the base height 150 the
    planner raises nothing and returns two pallets. *)
Lemma degenerate_limit_not_rejected :
  100 <= 150
  ∧ ∃ specs : gmap string ItemSpec,
      calculate_pallet_plan 1100 1100 tall_items 100 150
      = Ok ([mkPallet [] 150; mkPallet [Layer.mk "Tall" rem 1] 1650], specs).
Proof.
  split; [lia|]. eexists. vm_compute. reflexivity.
Qed.

(** C7. One box 1500 high on a base of 150 under a limit of 1550: the first
    pallet of the plan has no layer and the base height, before the pallet
    that holds the box. *)
Theorem tall_item_plan_starts_with_empty_pallet :
  result_map fst (calculate_pallet_plan 1100 1100 tall_items 1550 150)
  = Ok [mkPallet [] 150; mkPallet [Layer.mk "Tall" rem 1] 1650].
Proof. vm_compute. reflexivity. Qed.

(** ** Determinism *)



(** ** The default table, run *)

Example default_plan_heights :
  result_map (λ r, current_h <$> r.1)
    (calculate_pallet_plan 1100 1100 default_items 1550 150)
  = Ok [1325; 1497; 471].
Proof. vm_compute. reflexivity. Qed.

Example default_plan_layer_counts :
  result_map (λ r, (λ p, Layer.count <$> layers p) <$> r.1)
    (calculate_pallet_plan 1100 1100 default_items 1550 150)
  = Ok [[9; 9; 9; 9; 9]; [9; 9; 9; 6; 6]; [1]].
Proof. vm_compute. reflexivity. Qed.

Example mixed_plan_layer_names :
  result_map (λ r, (λ p, Layer.name <$> layers p) <$> r.1)
    (calculate_pallet_plan 1100 1100 mixed_items 1550 150)
  = Ok [["Item-A"; "Item-A"; "Item-A"; "Item-A"; "Item-A"];
        ["Item-A"; "Item-A"; "Item-A"]]%string.
Proof. vm_compute. reflexivity. Qed.

Example zero_side_raises :
  calculate_pallet_plan 1100 1100
    [("Flat"%string, mkItemData 0 336 235 0 "#aaccff")] 1550 150
  = Raise ZeroDivisionError.
Proof. vm_compute. reflexivity. Qed.

(** * Further properties of the code *)

(** ** The selector: failure, fit and symmetry *)

Lemma get_best_layer_pattern_zero_side p_w p_d b_l b_w :
  b_l = 0 ∨ b_w = 0 →
  get_best_layer_pattern p_w p_d b_l b_w = Raise ZeroDivisionError.
Proof.
  intros Hz. unfold get_best_layer_pattern, floordiv.
  destruct (decide (b_l = 0)) as [|Hl]; [done|].
  destruct (decide (b_w = 0)) as [|Hw]; [done|]. by destruct Hz.
Qed.

(** The only exception of the selector is [ZeroDivisionError], raised
    exactly when a box side is 0; the pallet sizes play no part. *)
Theorem get_best_layer_pattern_raises_iff p_w p_d b_l b_w e :
  get_best_layer_pattern p_w p_d b_l b_w = Raise e
  ↔ e = ZeroDivisionError ∧ (b_l = 0 ∨ b_w = 0).
Proof.
  split.
  - intros Hr.
    destruct (decide (b_l = 0)) as [|Hl], (decide (b_w = 0)) as [|Hw];
      try (rewrite get_best_layer_pattern_zero_side in Hr by tauto;
           split; [congruence|tauto]).
    by rewrite get_best_layer_pattern_ok in Hr.
  - intros [-> Hz]. by apply get_best_layer_pattern_zero_side.
Qed.

(** The chosen grid lies on the pallet and cannot be widened: with box
    sides that are positive, cols placed widths fit in the pallet width and
    cols + 1 do not, and the same for rows and the depth. *)
Theorem get_best_layer_pattern_fits p_w p_d b_l b_w :
  0 <= p_w → 0 <= p_d → 0 < b_l → 0 < b_w →
  ∃ pat,
    get_best_layer_pattern p_w p_d b_l b_w = Ok pat
    ∧ 0 <= Pattern.cols pat ∧ 0 <= Pattern.rows pat
    ∧ Pattern.cols pat * Pattern.box_w_view pat <= p_w
      < (Pattern.cols pat + 1) * Pattern.box_w_view pat
    ∧ Pattern.rows pat * Pattern.box_d_view pat <= p_d
      < (Pattern.rows pat + 1) * Pattern.box_d_view pat.
Proof.
  intros Hpw Hpd Hl Hw.
  eexists. split; [apply get_best_layer_pattern_ok; lia|].
  assert (∀ a b, 0 <= a → 0 < b → 0 <= a / b ∧ a / b * b <= a < (a / b + 1) * b)
    as Hdiv.
  { intros a b Ha Hb. pose proof (Z.div_mod a b ltac:(lia)).
    pose proof (Z.mod_pos_bound a b Hb). pose proof (Z.div_pos a b Ha Hb). nia. }
  pose proof (Hdiv p_w b_l Hpw Hl). pose proof (Hdiv p_d b_w Hpd Hw).
  pose proof (Hdiv p_w b_w Hpw Hw). pose proof (Hdiv p_d b_l Hpd Hl).
  case_decide; simpl; lia.
Qed.

Lemma get_best_layer_pattern_fits_witness :
  ∃ pat,
    get_best_layer_pattern 1100 1100 503 363 = Ok pat
    ∧ 0 <= Pattern.cols pat ∧ 0 <= Pattern.rows pat
    ∧ Pattern.cols pat * Pattern.box_w_view pat <= 1100
      < (Pattern.cols pat + 1) * Pattern.box_w_view pat
    ∧ Pattern.rows pat * Pattern.box_d_view pat <= 1100
      < (Pattern.rows pat + 1) * Pattern.box_d_view pat.
Proof. apply (get_best_layer_pattern_fits 1100 1100 503 363); lia. Defined.

(** Entering the two sides of the box the other way round changes neither
    the boxes per layer nor whether the call fails. *)
Theorem get_best_layer_pattern_count_symmetric p_w p_d b_l b_w :
  result_map Pattern.count (get_best_layer_pattern p_w p_d b_l b_w)
  = result_map Pattern.count (get_best_layer_pattern p_w p_d b_w b_l).
Proof.
  destruct (decide (b_l = 0 ∨ b_w = 0)) as [Hz|Hnz].
  { rewrite !get_best_layer_pattern_zero_side by tauto. done. }
  rewrite !get_best_layer_pattern_ok by tauto. unfold result_map. simpl.
  repeat case_decide; simpl; f_equal; lia.
Qed.

(** ** The planner: its only exception *)

Section PlannerFailure.

Variables PALLET_W PALLET_D : Z.

Lemma queue_item_zero_side st n d :
  ¬ dims_nonzero (n, d) →
  queue_item PALLET_W PALLET_D st (n, d) = Raise ZeroDivisionError.
Proof.
  intros Hz. unfold dims_nonzero in Hz. cbn [fst snd] in Hz.
  destruct st as [q s]. unfold queue_item.
  rewrite get_best_layer_pattern_zero_side; [done|].
  destruct (decide (L d = 0)); [tauto|]. destruct (decide (W d = 0)); tauto.
Qed.

Lemma for_each_queue_item_zero_side items :
  Exists (λ e, ¬ dims_nonzero e) items →
  ∀ q0 (s0 : gmap string ItemSpec),
    for_each (queue_item PALLET_W PALLET_D) items (q0, s0)
    = Raise ZeroDivisionError.
Proof.
  induction items as [|[n d] items IH]; intros Hex q0 s0;
    [by apply Exists_nil in Hex|].
  cbn [for_each].
  destruct (decide (dims_nonzero (n, d))) as [[Hl Hw]|Hz].
  - destruct (queue_item_ok PALLET_W PALLET_D q0 s0 n d Hl Hw) as (pat & _ & ->).
    cbn [result_bind]. apply IH.
    apply Exists_cons in Hex as [Hbad|Hex]; [|done].
    destruct Hbad. by split.
  - by rewrite queue_item_zero_side.
Qed.

(** The planner raises exactly when some item of the mapping has a side
    equal to 0, whatever its quantity, and then it is [ZeroDivisionError];
    in particular the metadata lookup of the second loop never fails. *)
Theorem calculate_pallet_plan_raises_iff items limit base e :
  calculate_pallet_plan PALLET_W PALLET_D items limit base = Raise e
  ↔ e = ZeroDivisionError ∧ Exists (λ entry, ¬ dims_nonzero entry) items.
Proof.
  destruct (decide (Forall dims_nonzero items)) as [Hdims|Hbad].
  - destruct (calculate_pallet_plan_ok PALLET_W PALLET_D items limit base Hdims)
      as (pallets & specs & _ & -> & _).
    split; [done|]. intros [_ Hex]. exfalso.
    apply Exists_exists in Hex as (x & Hx & Hnx).
    rewrite Forall_forall in Hdims. by apply Hnx, Hdims.
  - apply not_Forall_Exists in Hbad; [|apply _].
    unfold calculate_pallet_plan, build_queue.
    rewrite for_each_queue_item_zero_side by done. cbn [result_bind].
    split; [intros [= <-]; by split|by intros [-> _]].
Qed.

End PlannerFailure.

(** ** The greedy rule: empty pallets, forced splits, recorded heights *)

Section StackingMore.

Variable height : Layer.t → Z.
Variables limit base : Z.

Lemma greedy_rule_nonempty out cur queue final :
  greedy_rule height limit base out cur queue final →
  layers cur ≠ [] →
  ∃ rest, final = out ++ rest ∧ Forall (λ p, layers p ≠ []) rest.
Proof.
  induction 1 as [out cur l q final Hfit _ IH
                 |out cur l q final Hfit _ IH
                 |out cur Hne|out cur He]; intros Hcur.
  - apply IH. cbn [layers]. by destruct (layers cur).
  - destruct IH as (rest & -> & Hrest); [done|].
    exists (cur :: rest). split; [by rewrite <- app_assoc|by constructor].
  - exists [cur]. split; [done|]. by constructor.
  - done.
Qed.

(** From the initial state there are three ways the run can go. *)
Lemma greedy_rule_initial queue final :
  greedy_rule height limit base [] (mkPallet [] base) queue final →
  (queue = [] ∧ final = [])
  ∨ (∃ l q, queue = l :: q ∧ base + height l <= limit
            ∧ Forall (λ p, layers p ≠ []) final)
  ∨ (∃ l q rest, queue = l :: q ∧ limit < base + height l
                 ∧ final = mkPallet [] base :: rest
                 ∧ Forall (λ p, layers p ≠ []) rest).
Proof.
  intros Hg. inversion Hg as [? ? l q ? Hfit Hg'|? ? l q ? Hfit Hg'|? ? Hne|]; subst.
  - right. left. exists l, q. cbn [current_h layers] in *.
    apply greedy_rule_nonempty in Hg' as (rest & -> & Hrest); [|done].
    by split_and!.
  - right. right. cbn [current_h] in Hfit.
    apply greedy_rule_nonempty in Hg' as (rest & -> & Hrest); [|done].
    exists l, q, rest. split_and!; [done|lia|done|done].
  - by destruct Hne.
  - by left.
Qed.

Lemma greedy_rule_heights out cur queue final :
  greedy_rule height limit base out cur queue final →
  Forall (λ p, current_h p = base + sum_Z (height <$> layers p)) out →
  current_h cur = base + sum_Z (height <$> layers cur) →
  Forall (λ p, current_h p = base + sum_Z (height <$> layers p)) final.
Proof.
  induction 1 as [out cur l q final Hfit _ IH
                 |out cur l q final Hfit _ IH
                 |out cur Hne|out cur He]; intros Hout Hcur.
  - apply IH; [done|]. cbn [layers current_h].
    rewrite fmap_app, sum_Z_app, Hcur. simpl. lia.
  - apply IH; [|simpl; lia].
    apply Forall_app. split; [done|]. by apply Forall_singleton.
  - apply Forall_app. split; [done|]. by apply Forall_singleton.
  - done.
Qed.

Lemma splits_forced_one p : splits_forced height limit [p].
Proof. by split. Qed.

Lemma splits_forced_two p next tl :
  splits_forced height limit (p :: next :: tl)
  ↔ split_forced height limit p next ∧ splits_forced height limit (next :: tl).
Proof. done. Qed.

Lemma splits_forced_init ps p :
  splits_forced height limit (ps ++ [p]) → splits_forced height limit ps.
Proof.
  induction ps as [|p1 [|p2 ps] IH]; [done|by intros; apply splits_forced_one|].
  cbn [app]. rewrite !splits_forced_two. intros [? ?]. split; [done|by apply IH].
Qed.

Lemma splits_forced_last_grows ps cur cur' :
  splits_forced height limit (ps ++ [cur]) →
  (∀ l rest, layers cur = l :: rest → ∃ rest', layers cur' = l :: rest') →
  splits_forced height limit (ps ++ [cur']).
Proof.
  intros Hps Hgrow.
  induction ps as [|p1 [|p2 ps] IH]; [apply splits_forced_one| |].
  - cbn [app] in *. rewrite splits_forced_two in *.
    destruct Hps as [(l & rest & El & Hl) _]. split; [|apply splits_forced_one].
    destruct (Hgrow _ _ El) as [rest' El']. by exists l, rest'.
  - cbn [app] in *. rewrite splits_forced_two in *.
    destruct Hps as [? ?]. split; [done|by apply IH].
Qed.

Lemma splits_forced_snoc ps p next :
  splits_forced height limit (ps ++ [p]) →
  split_forced height limit p next →
  splits_forced height limit ((ps ++ [p]) ++ [next]).
Proof.
  intros Hps Hnext.
  induction ps as [|p1 [|p2 ps] IH].
  - cbn [app]. rewrite splits_forced_two. split; [done|apply splits_forced_one].
  - cbn [app] in *. rewrite !splits_forced_two in *.
    destruct Hps as [? ?]. split_and!; [done..|apply splits_forced_one].
  - cbn [app] in *. rewrite splits_forced_two in Hps.
    rewrite splits_forced_two. destruct Hps as [? ?]. split; [done|by apply IH].
Qed.

Lemma greedy_rule_splits out cur queue final :
  greedy_rule height limit base out cur queue final →
  splits_forced height limit (out ++ [cur]) →
  splits_forced height limit final.
Proof.
  induction 1 as [out cur l q final Hfit _ IH
                 |out cur l q final Hfit _ IH
                 |out cur Hne|out cur He]; intros Hinv.
  - apply IH. eapply splits_forced_last_grows; [exact Hinv|].
    intros l0 rest El. cbn [layers]. rewrite El. by eexists.
  - apply IH. apply splits_forced_snoc; [done|].
    exists l, []. split; [done|]. cbn [current_h]. lia.
  - done.
  - by apply splits_forced_init in Hinv.
Qed.

End StackingMore.

(** ** The plan: boxes, pallets and metadata *)

Section PlanMore.

Variables PALLET_W PALLET_D : Z.

Lemma item_layers_boxes n Q P :
  0 < Q → 0 < P → sum_Z (Layer.count <$> item_layers n Q P) = Q.
Proof.
  intros HQ HP. unfold item_layers.
  rewrite fmap_app, sum_Z_app, fmap_replicate, sum_Z_replicate. cbn [Layer.count].
  pose proof (Z.div_mod Q P ltac:(lia)).
  pose proof (Z.mod_pos_bound Q P HP).
  pose proof (Z.div_pos Q P ltac:(lia) HP).
  rewrite Z2Nat.id by done. case_decide; simpl; lia.
Qed.

(** The layers of one name in the queue are the layers of its item. *)
Lemma expected_queue_filter_name items n d :
  NoDup items.*1 → (n, d) ∈ items →
  filter (λ l, Layer.name l = n) (expected_queue PALLET_W PALLET_D items)
  = queue_of_item PALLET_W PALLET_D (n, d).
Proof.
  intros Hnd Hin.
  destruct (list_elem_of_split _ _ Hin) as (i1 & i2 & ->).
  assert (∀ its l, l ∈ expected_queue PALLET_W PALLET_D its →
                   Layer.name l ∈ its.*1) as Hnames.
  { intros its l (d' & Hd' & _)%expected_queue_elem.
    apply list_elem_of_fmap. by exists (Layer.name l, d'). }
  rewrite fmap_app, fmap_cons in Hnd. cbn [fst] in Hnd.
  apply NoDup_app in Hnd as (_ & Hn1 & [Hn2 _]%NoDup_cons).
  rewrite expected_queue_app, expected_queue_cons, !filter_app.
  rewrite (filter_none _ (expected_queue PALLET_W PALLET_D i1)),
          (filter_none _ (expected_queue PALLET_W PALLET_D i2)).
  - rewrite app_nil_r. cbn [app]. apply filter_all, Forall_forall.
    intros l Hl. unfold queue_of_item in Hl. cbn [fst snd] in Hl.
    case_decide; [by apply elem_of_nil in Hl|by eapply item_layers_name].
  - apply Forall_forall. intros l Hl%Hnames E. by rewrite E in Hl.
  - apply Forall_forall. intros l Hl%Hnames E. rewrite E in Hl.
    apply (Hn1 _ Hl). left.
Qed.

(** No box is lost or added on the way to the pallets: for an item with a
    positive quantity and a positive number of boxes per layer, the counts
    of its layers over all pallets add up to its quantity; for an item that
    is passed over they add up to 0. *)
Theorem plan_boxes_conserved items limit base n d :
  Forall dims_nonzero items → NoDup items.*1 → (n, d) ∈ items →
  ∃ pallets (specs : gmap string ItemSpec),
    calculate_pallet_plan PALLET_W PALLET_D items limit base = Ok (pallets, specs)
    ∧ (0 < QTY d → 0 < boxes_per_layer PALLET_W PALLET_D d →
       boxes_of n pallets = QTY d)
    ∧ (skipped PALLET_W PALLET_D d → boxes_of n pallets = 0).
Proof.
  intros Hdims Hnd Hin.
  destruct (calculate_pallet_plan_ok PALLET_W PALLET_D items limit base Hdims)
    as (pallets & specs & _ & Eplan & Hg & _).
  exists pallets, specs. split; [done|].
  apply greedy_rule_layers in Hg as (rest & -> & Hrest).
  cbn [layers app] in Hrest. unfold boxes_of.
  rewrite app_nil_l, Hrest, (expected_queue_filter_name items n d Hnd Hin).
  unfold queue_of_item. cbn [fst snd]. split.
  - intros HQ HP. rewrite decide_False by (unfold skipped; lia).
    by apply item_layers_boxes.
  - intros Hs. by rewrite decide_True.
Qed.

(** Only the first pallet of a plan can be without layers, and it is so
    exactly when the first queued layer does not fit above the base. *)
Theorem only_first_pallet_may_be_empty items limit base :
  Forall dims_nonzero items → NoDup items.*1 →
  ∃ queue pallets (specs : gmap string ItemSpec),
    build_queue PALLET_W PALLET_D items = Ok (queue, specs)
    ∧ calculate_pallet_plan PALLET_W PALLET_D items limit base = Ok (pallets, specs)
    ∧ Forall (λ p, layers p ≠ []) (tail pallets)
    ∧ (∀ p, head pallets = Some p →
         (layers p = [] ↔
          ∃ l q, queue = l :: q ∧ limit < base + layer_height items l)).
Proof.
  intros Hdims Hnd.
  destruct (calculate_pallet_plan_greedy_items PALLET_W PALLET_D items limit base
              Hdims Hnd) as (pallets & specs & Ebuild & Eplan & Hg).
  exists (expected_queue PALLET_W PALLET_D items), pallets, specs.
  split_and!; [done..| |];
    destruct (greedy_rule_initial _ _ _ _ _ Hg)
      as [[Eq ->]|[(l & q & Eq & Hfit & Hne)|(l & q & rest & Eq & Hover & -> & Hne)]].
  - constructor.
  - destruct Hne; [constructor|done].
  - done.
  - by intros p [=].
  - intros p Hp. destruct Hne as [|p' ps Hp' _]; simplify_eq/=.
    split; [done|]. intros (l' & q' & Eq' & Hover). rewrite Eq in Eq'.
    simplify_eq. lia.
  - intros p [= <-]. split; [|done]. intros _. by exists l, q.
Qed.

(** When no item is higher than the room between base and limit, every
    pallet of the plan holds a layer and stays within the limit. *)
Theorem fitting_items_stay_within_limit items limit base :
  Forall dims_nonzero items → NoDup items.*1 → base <= limit →
  (∀ n d, (n, d) ∈ items → H d <= limit - base) →
  ∃ pallets (specs : gmap string ItemSpec),
    calculate_pallet_plan PALLET_W PALLET_D items limit base = Ok (pallets, specs)
    ∧ Forall (λ p, layers p ≠ [] ∧ current_h p <= limit) pallets.
Proof.
  intros Hdims Hnd Hlim Hfit.
  destruct (calculate_pallet_plan_ok PALLET_W PALLET_D items limit base Hdims)
    as (pallets & specs & _ & Eplan & Hgs & _ & Hkept).
  assert (∀ l, l ∈ expected_queue PALLET_W PALLET_D items →
               spec_height specs l = layer_height items l
               ∧ layer_height items l <= limit - base) as Hh.
  { intros l Hl.
    destruct (spec_height_layer_height PALLET_W PALLET_D items specs l Hnd
                (Hkept Hnd) Hl) as (E & d & Hin & Ed).
    split; [done|]. rewrite Ed. by eapply Hfit. }
  assert (greedy_rule (layer_height items) limit base [] (mkPallet [] base)
            (expected_queue PALLET_W PALLET_D items) pallets) as Hg.
  { eapply greedy_rule_ext; [|exact Hgs]. intros l Hl. by apply Hh. }
  exists pallets, specs. split; [done|].
  assert (Forall (pallet_ok (layer_height items) limit base) pallets) as Hok.
  { eapply greedy_rule_pallet_ok; [exact Hg|done|].
    split; cbn [layers current_h]; [simpl; lia|lia]. }
  assert (Forall (λ p, layers p ≠ []) pallets) as Hne.
  { destruct (greedy_rule_initial _ _ _ _ _ Hg)
      as [[_ ->]|[(l & q & _ & _ & Hne)|(l & q & rest & Eq & Hover & _)]];
      [constructor|done|].
    destruct (Hh l) as [_ ?]; [rewrite Eq; left|lia]. }
  assert (plan_layers pallets = expected_queue PALLET_W PALLET_D items) as Hlayers.
  { destruct (greedy_rule_layers _ _ _ _ _ _ _ Hg) as (rest & -> & Hrest).
    by rewrite app_nil_l, Hrest. }
  apply Forall_forall. intros p Hp.
  rewrite Forall_forall in Hok, Hne. split; [by apply Hne|].
  destruct (Hok p Hp) as [_ Hover].
  destruct (decide (current_h p <= limit)) as [|Hbig]; [done|].
  destruct Hover as (l & El & Hl); [lia|].
  destruct (Hh l) as [_ ?]; [|lia].
  rewrite <- Hlayers. apply (elem_of_plan_layers l p); [done|]. rewrite El. left.
Qed.

(** A new pallet is started only when it has to be: the first layer of each
    pallet after the first did not fit on the pallet before it. *)
Theorem plan_splits_are_forced items limit base :
  Forall dims_nonzero items → NoDup items.*1 →
  ∃ pallets (specs : gmap string ItemSpec),
    calculate_pallet_plan PALLET_W PALLET_D items limit base = Ok (pallets, specs)
    ∧ splits_forced (layer_height items) limit pallets.
Proof.
  intros Hdims Hnd.
  destruct (calculate_pallet_plan_greedy_items PALLET_W PALLET_D items limit base
              Hdims Hnd) as (pallets & specs & _ & Eplan & Hg).
  exists pallets, specs. split; [done|].
  eapply greedy_rule_splits; [exact Hg|]. apply splits_forced_one.
Qed.

End PlanMore.

Lemma plan_boxes_conserved_witness :
  ∃ pallets (specs : gmap string ItemSpec),
    calculate_pallet_plan 1100 1100 mixed_items 1550 150 = Ok (pallets, specs)
    ∧ (0 < 72 → 0 < boxes_per_layer 1100 1100 (mkItemData 336 336 235 72 "#aaccff") →
       boxes_of "Item-A" pallets = 72)
    ∧ (skipped 1100 1100 (mkItemData 336 336 235 72 "#aaccff") →
       boxes_of "Item-A" pallets = 0).
Proof.
  apply (plan_boxes_conserved 1100 1100 mixed_items 1550 150 "Item-A"
           (mkItemData 336 336 235 72 "#aaccff")).
  - exact mixed_items_dims.
  - exact mixed_items_NoDup.
  - left.
Defined.

Lemma only_first_pallet_may_be_empty_witness :
  ∃ queue pallets (specs : gmap string ItemSpec),
    build_queue 1100 1100 tall_items = Ok (queue, specs)
    ∧ calculate_pallet_plan 1100 1100 tall_items 1550 150 = Ok (pallets, specs)
    ∧ Forall (λ p, layers p ≠ []) (tail pallets)
    ∧ (∀ p, head pallets = Some p →
         (layers p = [] ↔
          ∃ l q, queue = l :: q ∧ 1550 < 150 + layer_height tall_items l)).
Proof.
  apply (only_first_pallet_may_be_empty 1100 1100 tall_items 1550 150).
  - exact tall_items_dims.
  - exact tall_items_NoDup.
Defined.

Lemma fitting_items_stay_within_limit_witness :
  ∃ pallets (specs : gmap string ItemSpec),
    calculate_pallet_plan 1100 1100 default_items 1550 150 = Ok (pallets, specs)
    ∧ Forall (λ p, layers p ≠ [] ∧ current_h p <= 1550) pallets.
Proof.
  apply (fitting_items_stay_within_limit 1100 1100 default_items 1550 150).
  - exact default_items_dims.
  - exact default_items_NoDup.
  - lia.
  - intros n d Hin. unfold default_items in Hin.
    rewrite !elem_of_cons, elem_of_nil in Hin.
    destruct Hin as [[= _ ->]|[[= _ ->]|[]]]; simpl; lia.
Defined.

Lemma plan_splits_are_forced_witness :
  ∃ pallets (specs : gmap string ItemSpec),
    calculate_pallet_plan 1100 1100 default_items 1550 150 = Ok (pallets, specs)
    ∧ splits_forced (layer_height default_items) 1550 pallets.
Proof.
  apply (plan_splits_are_forced 1100 1100 default_items 1550 150).
  - exact default_items_dims.
  - exact default_items_NoDup.
Defined.

(** ** Metadata and the side view *)

Section MetadataAndSideView.

Variables PALLET_W PALLET_D : Z.

(** The metadata holds exactly the items that are not passed over, each
    under its name with its own height, colour and sides and with the
    pattern the selector returns for it. *)
Theorem metadata_holds_placed_items items limit base :
  Forall dims_nonzero items → NoDup items.*1 →
  ∃ pallets (specs : gmap string ItemSpec),
    calculate_pallet_plan PALLET_W PALLET_D items limit base = Ok (pallets, specs)
    ∧ (∀ n d, (n, d) ∈ items → ¬ skipped PALLET_W PALLET_D d →
         ∃ pat,
           get_best_layer_pattern PALLET_W PALLET_D (L d) (W d) = Ok pat
           ∧ specs !! n = Some (mkItemSpec (H d) (Color d) pat (L d) (W d)))
    ∧ (∀ n, is_Some (specs !! n) →
         ∃ d, (n, d) ∈ items ∧ ¬ skipped PALLET_W PALLET_D d).
Proof.
  intros Hdims Hnd.
  destruct (calculate_pallet_plan_ok PALLET_W PALLET_D items limit base Hdims)
    as (pallets & specs & _ & Eplan & _ & Hskip & Hkept).
  exists pallets, specs. split_and!; [done|by apply Hkept|].
  intros n [sp Esp].
  destruct ((list_to_map items : gmap string ItemData) !! n) as [d|] eqn:Ed.
  - apply elem_of_list_to_map_2 in Ed as Hin.
    exists d. split; [done|]. intros Hs.
    rewrite Hskip in Esp; [done|]. intros d' Hd'.
    apply (elem_of_list_to_map_1 (M := gmap string)) in Hd'; [|done].
    congruence.
  - rewrite Hskip in Esp; [done|]. intros d' Hd'.
    apply (elem_of_list_to_map_1 (M := gmap string)) in Hd'; [|done].
    congruence.
Qed.

Lemma side_view_height_sum (specs : gmap string ItemSpec) ls c :
  (∀ l, l ∈ ls → is_Some (specs !! Layer.name l)) →
  for_each (side_view_step specs) ls c
  = Ok (c + sum_Z (spec_height specs <$> ls)).
Proof.
  revert c. induction ls as [|l ls IH]; intros c Hsome.
  { cbn. f_equal. lia. }
  destruct (Hsome l) as [sp Esp]; [left|].
  rewrite fmap_cons. cbn [for_each].
  unfold side_view_step at 1, getitem. rewrite Esp. cbn [result_bind].
  rewrite IH by (intros; apply Hsome; by right). f_equal.
  change (sum_Z (spec_height specs l :: (spec_height specs <$> ls)))
    with (spec_height specs l + sum_Z (spec_height specs <$> ls)).
  unfold spec_height at 2. rewrite Esp. simpl. lia.
Qed.

(** The height the side view reaches for a pallet of a plan made with
    [PALLET_H] as base height is the height recorded in that pallet, and the
    metadata lookups of the side view never fail. *)
Theorem side_view_height_is_recorded_height items limit PALLET_H :
  Forall dims_nonzero items →
  ∃ pallets (specs : gmap string ItemSpec),
    calculate_pallet_plan PALLET_W PALLET_D items limit PALLET_H
    = Ok (pallets, specs)
    ∧ Forall (λ p, side_view_height PALLET_H specs p = Ok (current_h p)) pallets.
Proof.
  intros Hdims.
  destruct (calculate_pallet_plan_ok PALLET_W PALLET_D items limit PALLET_H Hdims)
    as (pallets & specs & Ebuild & Eplan & Hg & _).
  destruct (build_queue_ok PALLET_W PALLET_D items Hdims)
    as (specs' & Ebuild' & _ & Hsome & _).
  rewrite Ebuild in Ebuild'. injection Ebuild' as <-.
  exists pallets, specs. split; [done|].
  assert (Forall (λ p, current_h p
                       = PALLET_H + sum_Z (spec_height specs <$> layers p))
            pallets) as Hh.
  { eapply greedy_rule_heights; [exact Hg|done|]. simpl. lia. }
  destruct (greedy_rule_layers _ _ _ _ _ _ _ Hg) as (rest & -> & Hrest).
  cbn [layers app] in Hrest. rewrite app_nil_l in *.
  apply Forall_forall. intros p Hp. rewrite Forall_forall in Hh.
  unfold side_view_height. rewrite side_view_height_sum, (Hh p Hp); [done|].
  intros l Hl. apply Hsome. rewrite <- Hrest.
  by apply (elem_of_plan_layers l p).
Qed.

End MetadataAndSideView.

Lemma metadata_holds_placed_items_witness :
  ∃ pallets (specs : gmap string ItemSpec),
    calculate_pallet_plan 1100 1100 mixed_items 1550 150 = Ok (pallets, specs)
    ∧ (∀ n d, (n, d) ∈ mixed_items → ¬ skipped 1100 1100 d →
         ∃ pat,
           get_best_layer_pattern 1100 1100 (L d) (W d) = Ok pat
           ∧ specs !! n = Some (mkItemSpec (H d) (Color d) pat (L d) (W d)))
    ∧ (∀ n, is_Some (specs !! n) →
         ∃ d, (n, d) ∈ mixed_items ∧ ¬ skipped 1100 1100 d).
Proof.
  apply (metadata_holds_placed_items 1100 1100 mixed_items 1550 150).
  - exact mixed_items_dims.
  - exact mixed_items_NoDup.
Defined.

Lemma side_view_height_is_recorded_height_witness :
  ∃ pallets (specs : gmap string ItemSpec),
    calculate_pallet_plan 1100 1100 default_items 1550 150 = Ok (pallets, specs)
    ∧ Forall (λ p, side_view_height 150 specs p = Ok (current_h p)) pallets.
Proof.
  apply (side_view_height_is_recorded_height 1100 1100 default_items 1550 150).
  exact default_items_dims.
Defined.

(** ** From the table to the input mapping *)

Lemma dict_set_elem {V} (d : list (string * V)) k v e :
  e ∈ dict_set d k v → e = (k, v) ∨ e ∈ d.
Proof.
  induction d as [|[k' v'] d IH]; cbn [dict_set].
  { intros ->%list_elem_of_singleton. by left. }
  case_decide as Hk.
  - intros [->|?]%elem_of_cons; [by left|right; by right].
  - intros [->|[->|?]%IH]%elem_of_cons; [right; left|by left|right; by right].
Qed.

Lemma dict_set_keys {V} (d : list (string * V)) k v n :
  n ∈ (dict_set d k v).*1 ↔ n = k ∨ n ∈ d.*1.
Proof.
  induction d as [|[k' v'] d IH]; cbn [dict_set].
  { rewrite fmap_cons, elem_of_cons. cbn. set_solver. }
  case_decide as Hk; rewrite !fmap_cons, !elem_of_cons; cbn [fst].
  - subst. tauto.
  - rewrite IH. tauto.
Qed.

Lemma dict_set_NoDup {V} (d : list (string * V)) k v :
  NoDup d.*1 → NoDup (dict_set d k v).*1.
Proof.
  induction d as [|[k' v'] d IH]; cbn [dict_set].
  { intros _. apply NoDup_singleton. }
  rewrite fmap_cons, NoDup_cons. cbn [fst]. intros [Hk' Hnd].
  case_decide as Hk.
  - subst. rewrite fmap_cons, NoDup_cons. done.
  - rewrite fmap_cons, NoDup_cons. cbn [fst]. split; [|by apply IH].
    rewrite dict_set_keys. intros [->|?]; done.
Qed.

(** Reading back what was written, as a finite map: an insertion. *)
Lemma dict_set_lookup {V} (d : list (string * V)) k v :
  (list_to_map (dict_set d k v) : gmap string V) = <[k := v]> (list_to_map d).
Proof.
  induction d as [|[k' v'] d IH]; cbn [dict_set]; [done|].
  case_decide as Hk.
  - subst. cbn. by rewrite insert_insert_eq.
  - cbn. rewrite IH. by apply insert_insert_ne.
Qed.

Lemma dict_set_fresh {V} (d : list (string * V)) k v :
  k ∉ d.*1 → dict_set d k v = d ++ [(k, v)].
Proof.
  induction d as [|[k' v'] d IH]; cbn [dict_set]; [done|].
  rewrite fmap_cons, not_elem_of_cons. cbn [fst]. intros [Hk Hd].
  rewrite decide_False by done. by rewrite IH.
Qed.

Lemma foldl_add_row_elem rows d0 e :
  e ∈ foldl add_row d0 rows →
  e ∈ d0 ∨ ∃ row, row ∈ rows ∧ row_valid row ∧ e = (TableRow.Name row, row_data row).
Proof.
  revert d0. induction rows as [|row rows IH]; intros d0; cbn [foldl]; [by left|].
  intros [He|(row' & ? & ? & ?)]%IH.
  - unfold add_row in He. case_decide as Hv.
    + apply dict_set_elem in He as [->|?]; [|by left].
      right. exists row. split_and!; [left|done..].
    + by left.
  - right. exists row'. split_and!; [by right|done..].
Qed.

Lemma foldl_add_row_NoDup rows d0 :
  NoDup d0.*1 → NoDup (foldl add_row d0 rows).*1.
Proof.
  revert d0. induction rows as [|row rows IH]; intros d0 Hnd; cbn [foldl]; [done|].
  apply IH. unfold add_row. case_decide; [by apply dict_set_NoDup|done].
Qed.

(** The mapping handed to the planner is a proper dict: its names are
    distinct, none is empty, and every quantity is positive. *)
Theorem input_data_dict_well_formed rows :
  NoDup (input_data_dict_of rows).*1
  ∧ Forall (λ e, e.1 ≠ ""%string ∧ 0 < QTY e.2) (input_data_dict_of rows).
Proof.
  split; [apply foldl_add_row_NoDup; constructor|].
  apply Forall_forall. intros e [[]%elem_of_nil|(row & _ & [Hn Hq] & ->)]%foldl_add_row_elem.
  cbn. split; [done|lia].
Qed.

Lemma foldl_add_row_lookup rows d0 n :
  (list_to_map (foldl add_row d0 rows) : gmap string ItemData) !! n
  = match last (filter (λ row, row_valid row ∧ TableRow.Name row = n) rows) with
    | Some row => Some (row_data row)
    | None => (list_to_map d0 : gmap string ItemData) !! n
    end.
Proof.
  revert d0. induction rows as [|row rows IH]; intros d0; cbn [foldl]; [done|].
  rewrite IH, filter_cons.
  destruct (decide (row_valid row ∧ TableRow.Name row = n)) as [[Hv <-]|Hn].
  - rewrite last_cons.
    destruct (last (filter _ rows)); [done|].
    unfold add_row. rewrite decide_True by done.
    by rewrite dict_set_lookup, lookup_insert_eq.
  - destruct (last (filter _ rows)); [done|].
    unfold add_row. case_decide as Hv; [|done].
    rewrite dict_set_lookup, lookup_insert_ne; [done|]. intros E. by destruct Hn.
Qed.

(** When several rows carry the same name the last one that passes the
    filter wins: the mapping holds under a name the cells of the last valid
    row of that name, and nothing under a name no valid row carries. *)
Theorem input_data_dict_last_row_wins rows n :
  (list_to_map (input_data_dict_of rows) : gmap string ItemData) !! n
  = row_data <$> last (filter (λ row, row_valid row ∧ TableRow.Name row = n) rows).
Proof.
  unfold input_data_dict_of. rewrite foldl_add_row_lookup.
  by destruct (last _).
Qed.

Lemma foldl_add_row_distinct rows d0 :
  NoDup (d0.*1 ++ (TableRow.Name <$> filter row_valid rows)) →
  foldl add_row d0 rows
  = d0 ++ ((λ row, (TableRow.Name row, row_data row)) <$> filter row_valid rows).
Proof.
  revert d0. induction rows as [|row rows IH]; intros d0 Hnd; cbn [foldl].
  { by rewrite app_nil_r. }
  destruct (decide (row_valid row)) as [Hv|Hv].
  - rewrite filter_cons_True in Hnd |- * by done.
    rewrite (fmap_cons TableRow.Name) in Hnd. rewrite fmap_cons.
    assert (add_row d0 row = d0 ++ [(TableRow.Name row, row_data row)]) as ->.
    { unfold add_row. rewrite decide_True by done. apply dict_set_fresh.
      apply NoDup_app in Hnd as (_ & Hd & _). intros Hin.
      apply (Hd _ Hin). left. }
    rewrite IH; [by rewrite <- app_assoc|].
    by rewrite fmap_app, <- app_assoc.
  - rewrite filter_cons_False in Hnd |- * by done.
    assert (add_row d0 row = d0) as -> by (unfold add_row; by rewrite decide_False).
    by apply IH.
Qed.


(** The script reports that there is no valid data exactly when no row of
    the table has a name and a positive quantity. *)
Theorem input_data_dict_empty_iff rows :
  input_data_dict_of rows = [] ↔ Forall (λ row, ¬ row_valid row) rows.
Proof.
  split.
  - intros Hempty. apply Forall_forall. intros row Hrow Hv.
    pose proof (foldl_add_row_lookup rows [] (TableRow.Name row)) as Hl.
    fold (input_data_dict_of rows) in Hl. rewrite Hempty in Hl. cbn in Hl.
    destruct (last (filter _ rows)) eqn:Elast; [done|].
    apply last_None in Elast.
    assert (row ∈ filter (λ r, row_valid r ∧ TableRow.Name r = TableRow.Name row) rows) as Hin
      by by apply list_elem_of_filter.
    rewrite Elast in Hin. by apply elem_of_nil in Hin.
  - intros Hnone.
    unfold input_data_dict_of. rewrite foldl_add_row_distinct;
      rewrite (filter_none row_valid rows Hnone); [done|constructor].
Qed.

(** For a table whose valid rows have nonzero sides the planner raises
    nothing, and an item of the mapping is missing from the metadata exactly
    when no box of it fits on a layer: the quantity test of the planner
    never passes over an item that comes from the table. *)
Theorem table_item_left_out_iff_no_box_fits PALLET_W PALLET_D rows limit base :
  Forall (λ row, row_valid row → TableRow.L row ≠ 0 ∧ TableRow.W row ≠ 0) rows →
  ∃ pallets (specs : gmap string ItemSpec),
    calculate_pallet_plan PALLET_W PALLET_D (input_data_dict_of rows) limit base
    = Ok (pallets, specs)
    ∧ ∀ n d, (n, d) ∈ input_data_dict_of rows →
        (specs !! n = None ↔ boxes_per_layer PALLET_W PALLET_D d = 0).
Proof.
  intros Hrows.
  assert (NoDup (input_data_dict_of rows).*1) as Hnd
    by (apply foldl_add_row_NoDup; constructor).
  assert (Forall (λ e, 0 < QTY e.2) (input_data_dict_of rows)) as Hok.
  { apply Forall_forall.
    intros e [[]%elem_of_nil|(row & _ & [_ Hq] & ->)]%foldl_add_row_elem.
    cbn. lia. }
  assert (Forall dims_nonzero (input_data_dict_of rows)) as Hdims.
  { apply Forall_forall.
    intros e [[]%elem_of_nil|(row & Hrow & Hv & ->)]%foldl_add_row_elem.
    rewrite Forall_forall in Hrows. by apply Hrows. }
  destruct (calculate_pallet_plan_ok PALLET_W PALLET_D _ limit base Hdims)
    as (pallets & specs & _ & Eplan & _ & Hskip & Hkept).
  exists pallets, specs. split; [done|]. intros n d Hin.
  rewrite Forall_forall in Hok. pose proof (Hok _ Hin) as HQ. cbn in HQ.
  split.
  - intros Enone.
    destruct (decide (boxes_per_layer PALLET_W PALLET_D d = 0)) as [|Hp]; [done|].
    destruct (Hkept Hnd n d Hin) as (pat & _ & Esome);
      [unfold skipped; lia|congruence].
  - intros Hp. apply Hskip. intros d' Hd'. right.
    apply (elem_of_list_to_map_1 (M := gmap string)) in Hin, Hd'; [|done..].
    congruence.
Qed.

Lemma table_item_left_out_iff_no_box_fits_witness :
  ∃ pallets (specs : gmap string ItemSpec),
    calculate_pallet_plan 1100 1100 (input_data_dict_of sample_rows) 1550 150
    = Ok (pallets, specs)
    ∧ ∀ n d, (n, d) ∈ input_data_dict_of sample_rows →
        (specs !! n = None ↔ boxes_per_layer 1100 1100 d = 0).
Proof.
  apply (table_item_left_out_iff_no_box_fits 1100 1100 sample_rows 1550 150).
  repeat (constructor; [intros _; simpl; lia|]). constructor.
Defined.


Example sample_rows_mapping :
  input_data_dict_of sample_rows
  = [("Item-A"%string, mkItemData 400 300 200 10 "#aaccff")].
Proof. vm_compute. reflexivity. Qed.

(** ** The password gate *)

Lemma password_entered_ok secrets (session_state : gmap string PyVal) entered secret :
  session_state !! "password"%string = Some entered →
  secrets !! "PASSWORD"%string = Some secret →
  password_entered secrets session_state
  = Ok (if decide (entered = secret)
        then delete "password"%string
               (<["password_correct"%string := PBool true]> session_state)
        else <["password_correct"%string := PBool false]> session_state).
Proof.
  intros He Hs. unfold password_entered, getitem. rewrite He, Hs. cbn.
  by case_decide.
Qed.

Lemma password_entered_inv secrets (session_state ss' : gmap string PyVal) :
  password_entered secrets session_state = Ok ss' →
  ∃ entered secret,
    session_state !! "password"%string = Some entered
    ∧ secrets !! "PASSWORD"%string = Some secret
    ∧ ss' = (if decide (entered = secret)
             then delete "password"%string
                    (<["password_correct"%string := PBool true]> session_state)
             else <["password_correct"%string := PBool false]> session_state).
Proof.
  intros Hrun.
  destruct (session_state !! "password"%string) as [entered|] eqn:He;
    [|by unfold password_entered, getitem in Hrun; rewrite He in Hrun].
  destruct (secrets !! "PASSWORD"%string) as [secret|] eqn:Hs;
    [|by unfold password_entered, getitem in Hrun; rewrite He, Hs in Hrun].
  rewrite (password_entered_ok _ _ _ _ He Hs) in Hrun.
  exists entered, secret. split_and!; [done..|congruence].
Qed.

(** After the callback has run, the gate lets the script through exactly
    when the typed password equals the secret, and then it renders nothing;
    otherwise it renders the password field and the error message. *)
Theorem login_grants_iff_password_matches secrets (session_state ss' : gmap string PyVal) :
  password_entered secrets session_state = Ok ss' →
  (check_password ss' = (true, [])
   ↔ session_state !! "password"%string = secrets !! "PASSWORD"%string)
  ∧ (check_password ss'
     = (false, [TextInput "パスワードを入力してください" "password";
                ErrorBox "😕 パスワードが違います"])
     ↔ session_state !! "password"%string ≠ secrets !! "PASSWORD"%string).
Proof.
  intros (entered & secret & He & Hs & ->)%password_entered_inv.
  rewrite He, Hs. unfold check_password.
  case_decide as Heq.
  - rewrite lookup_delete_ne, lookup_insert_eq by done. cbn.
    split; (split; [intros; congruence|intros; done || congruence]).
  - rewrite lookup_insert_eq. cbn.
    split; (split; [intros; congruence|intros; done || congruence]).
Qed.

Lemma login_grants_iff_password_matches_witness :
  (check_password
     (delete "password"%string
        (<["password_correct"%string := PBool true]> (sample_session "s3cret")))
   = (true, [])
   ↔ sample_session "s3cret" !! "password"%string
     = sample_secrets !! "PASSWORD"%string)
  ∧ (check_password
       (delete "password"%string
          (<["password_correct"%string := PBool true]> (sample_session "s3cret")))
     = (false, [TextInput "パスワードを入力してください" "password";
                ErrorBox "😕 パスワードが違います"])
     ↔ sample_session "s3cret" !! "password"%string
       ≠ sample_secrets !! "PASSWORD"%string).
Proof.
  apply (login_grants_iff_password_matches sample_secrets (sample_session "s3cret")).
  reflexivity.
Defined.

(** The callback erases a correct password from the session state and
    leaves a wrong one there; it touches no key other than the password and
    its verdict. *)
Theorem password_entered_session_state secrets (session_state ss' : gmap string PyVal) :
  password_entered secrets session_state = Ok ss' →
  ss' !! "password"%string
  = (if decide (session_state !! "password"%string = secrets !! "PASSWORD"%string)
     then None else session_state !! "password"%string)
  ∧ ∀ k, k ≠ "password"%string → k ≠ "password_correct"%string →
         ss' !! k = session_state !! k.
Proof.
  intros (entered & secret & He & Hs & ->)%password_entered_inv.
  rewrite He, Hs. split.
  - destruct (decide (entered = secret)) as [->|Hne].
    + rewrite decide_True by done. by rewrite lookup_delete_eq.
    + rewrite decide_False by congruence. by rewrite lookup_insert_ne.
  - intros k Hk1 Hk2. case_decide.
    + by rewrite lookup_delete_ne, lookup_insert_ne.
    + by rewrite lookup_insert_ne.
Qed.

Lemma password_entered_session_state_witness :
  <["password_correct"%string := PBool false]> (sample_session "guess")
    !! "password"%string
  = (if decide (sample_session "guess" !! "password"%string
                = sample_secrets !! "PASSWORD"%string)
     then None else sample_session "guess" !! "password"%string)
  ∧ ∀ k, k ≠ "password"%string → k ≠ "password_correct"%string →
         <["password_correct"%string := PBool false]> (sample_session "guess") !! k
         = sample_session "guess" !! k.
Proof.
  apply (password_entered_session_state sample_secrets (sample_session "guess")).
  reflexivity.
Defined.


(** ** The packing list *)

Lemma string_length_app (s t : string) :
  String.length (s +:+ t) = (String.length s + String.length t)%nat.
Proof. induction s as [|a s IH]; simpl; [done|by rewrite IH]. Qed.

Lemma string_app_inj_r (s1 s2 t : string) : s1 +:+ t = s2 +:+ t → s1 = s2.
Proof.
  revert s2. induction s1 as [|a s1 IH]; intros [|b s2] E; simpl in E.
  - done.
  - apply (f_equal String.length) in E.
    change (String.length t = S (String.length (s2 +:+ t))) in E.
    rewrite string_length_app in E. lia.
  - apply (f_equal String.length) in E.
    change (S (String.length (s1 +:+ t)) = String.length t) in E.
    rewrite string_length_app in E. lia.
  - injection E as -> E. f_equal. by apply IH.
Qed.

Lemma packing_row_inj : Inj (=) (=) packing_row.
Proof.
  intros [n1 t1 c1] [n2 t2 c2]. unfold packing_row. cbn.
  intros [= -> Hc Ht].
  apply string_app_inj_r, (inj pretty) in Hc as ->.
  destruct t1, t2; cbn in Ht; try done.
Qed.

(** The packing list of a pallet loses nothing: it has one line per layer,
    the top layer first, and two pallets with the same packing list have the
    same layers. *)
Theorem layers_data_faithful p1 p2 :
  length (layers_data p1) = length (layers p1)
  ∧ head (layers_data p1) = packing_row <$> last (layers p1)
  ∧ (layers_data p1 = layers_data p2 → layers p1 = layers p2).
Proof.
  unfold layers_data. split_and!.
  - by rewrite length_fmap, length_reverse.
  - destruct (layers p1) as [|l ls _] using rev_ind; [done|].
    by rewrite reverse_snoc, last_snoc.
  - intros E. pose proof packing_row_inj.
    apply (inj (fmap packing_row)) in E. by apply (inj reverse) in E.
Qed.
